(** * MPIN strength checker: a shallow embedding of [mpin_notebook.ipynb]

    The notebook's core is two pure functions, [_generate_demographic_pins]
    and [check_mpin_strength], over two constant tables of common PINs.
    Python values are modelled as follows:
    - [str] is a sequence of Unicode code points, [list N];
    - [Set[str]] is a finite set, [gset (list N)];
    - [Dict[str, Optional[date]]] is a finite map [gmap (list N) (option date)];
    - [int] is [Z] where it is a length argument, [N] for the fields of a date;
    - [raise ValueError(..)] is the [Raise] outcome of the [outcome] type. *)

From Stdlib Require Import NArith ZArith List String Ascii Lia.
From stdpp Require Import base option list gmap sets fin_sets sorting.

Local Open Scope N_scope.

(** ** Python strings *)

Module PyStr.

(** A Python [str]: its code points, in order. *)
Abbreviation str := (list N).

(** The code points of an ASCII literal. *)
Definition lit (s : string) : str :=
  List.map N_of_ascii (list_ascii_of_string s).

(** Inclusive code point ranges on which [Py_UNICODE_ISDIGIT] holds
    (Unicode 15.0, the database of the notebook's Python 3.12: the
    characters whose Numeric_Type is Decimal or Digit). *)
Definition digit_ranges : list (N * N) :=
  [ (48, 57); (178, 179); (185, 185); (1632, 1641); (1776, 1785);
    (1984, 1993); (2406, 2415); (2534, 2543); (2662, 2671); (2790, 2799);
    (2918, 2927); (3046, 3055); (3174, 3183); (3302, 3311); (3430, 3439);
    (3558, 3567); (3664, 3673); (3792, 3801); (3872, 3881); (4160, 4169);
    (4240, 4249); (4969, 4977); (6112, 6121); (6160, 6169); (6470, 6479);
    (6608, 6618); (6784, 6793); (6800, 6809); (6992, 7001); (7088, 7097);
    (7232, 7241); (7248, 7257); (8304, 8304); (8308, 8313); (8320, 8329);
    (9312, 9320); (9332, 9340); (9352, 9360); (9450, 9450); (9461, 9469);
    (9471, 9471); (10102, 10110); (10112, 10120); (10122, 10130);
    (42528, 42537); (43216, 43225); (43264, 43273); (43472, 43481);
    (43504, 43513); (43600, 43609); (44016, 44025); (65296, 65305);
    (66720, 66729); (68160, 68163); (68912, 68921); (69216, 69224);
    (69714, 69722); (69734, 69743); (69872, 69881); (69942, 69951);
    (70096, 70105); (70384, 70393); (70736, 70745); (70864, 70873);
    (71248, 71257); (71360, 71369); (71472, 71481); (71904, 71913);
    (72016, 72025); (72784, 72793); (73040, 73049); (73120, 73129);
    (73552, 73561);
    (92768, 92777); (92864, 92873); (93008, 93017); (120782, 120831);
    (123200, 123209); (123632, 123641); (124144, 124153);
    (125264, 125273);
    (127232, 127242); (130032, 130041) ].

Definition in_range (c : N) (r : N * N) : bool :=
  (fst r <=? c) && (c <=? snd r).

Definition Py_UNICODE_ISDIGIT (c : N) : bool :=
  existsb (in_range c) digit_ranges.

(** [s.isdigit()]: at least one character, and every character a digit. *)
Definition isdigit (s : str) : bool :=
  match s with
  | [] => false
  | _ :: _ => forallb Py_UNICODE_ISDIGIT s
  end.

(** [len(s)] *)
Definition len (s : str) : Z := Z.of_nat (length s).

(** Decimal digits of [n], most significant first; [fuel] bounds the
    number of digits produced. *)
Fixpoint decimal_digits (fuel : nat) (n : N) : str :=
  match fuel with
  | O => []
  | S fuel' =>
      if n <? 10 then [48 + n]
      else decimal_digits fuel' (n / 10) ++ [48 + n mod 10]
  end.

(** [str(n)] for a non-negative [n]; a number has no more decimal digits
    than binary ones. *)
Definition str_of_int (n : N) : str :=
  decimal_digits (S (N.size_nat n)) n.

(** [f"{n:0{width}d}"] for a non-negative [n]: zeros on the left up to
    [width] characters, nothing cut when the number is longer. *)
Definition format_0d (width : nat) (n : N) : str :=
  let s := str_of_int n in
  replicate (width - length s) 48 ++ s.

(** The number a digit string denotes (inverse of [str_of_int]). *)
Definition int_of_digits (s : str) : N :=
  fold_left (fun acc c => 10 * acc + (c - 48)) s 0.

(** [a <= b] on strings: lexicographic by code point, a proper prefix
    first. *)
Fixpoint str_leb (a b : str) : bool :=
  match a, b with
  | [], _ => true
  | _ :: _, [] => false
  | x :: a', y :: b' =>
      if x <? y then true
      else if y <? x then false
      else str_leb a' b'
  end.

Definition str_le (a b : str) : Prop := str_leb a b = true.

Definition str_lt (a b : str) : Prop := str_le a b ∧ a ≠ b.

#[export] Instance str_le_dec : RelDecision str_le :=
  fun a b => decide (str_leb a b = true).

(** [sorted(l)] on a list of strings. *)
Definition sorted (l : list str) : list str := merge_sort str_le l.

End PyStr.

Import PyStr.

(** ** [datetime.date] *)

Module Datetime.

Record date := mkdate { year : N; month : N; day : N }.

Definition is_leap (y : N) : bool :=
  (y mod 4 =? 0) && (negb (y mod 100 =? 0) || (y mod 400 =? 0)).

Definition days_in_month (y m : N) : N :=
  match m with
  | 2 => if is_leap y then 29 else 28
  | 4 | 6 | 9 | 11 => 30
  | _ => 31
  end.

(** The dates [datetime.date(y, m, d)] accepts: MINYEAR = 1,
    MAXYEAR = 9999. *)
Definition valid_date (d : date) : Prop :=
  1 <= year d <= 9999 ∧ 1 <= month d <= 12 ∧
  1 <= day d <= days_in_month (year d) (month d).

#[export] Instance valid_date_dec d : Decision (valid_date d).
Proof. unfold valid_date. apply _. Defined.

End Datetime.

Import Datetime.

(** ** Constants of the notebook *)

Definition COMMONLY_USED_4_DIGIT_PINS : gset str :=
  list_to_set (List.map lit
    [ "1234"; "9876"; "1111"; "2222"; "3333"; "4444"; "5555"; "6666";
      "7777"; "8888"; "9999"; "0000"; "1122"; "1212"; "2580"; "1990";
      "1991"; "1992"; "1993"; "1994"; "1995"; "1996"; "1997"; "1998";
      "1999"; "2000"; "2001"; "2002"; "2003"; "2004"; "2005" ]%string).

Definition COMMONLY_USED_6_DIGIT_PINS : gset str :=
  list_to_set (List.map lit
    [ "123456"; "987654"; "111111"; "222222"; "333333"; "444444";
      "555555"; "666666"; "777777"; "888888"; "999999"; "000000";
      "123123"; "112233" ]%string).

(** ** Core logic *)

(** [_generate_demographic_pins(date_obj, length)]: [None] is the falsy
    [date_obj] of the first test. *)
Definition _generate_demographic_pins
    (date_obj : option date) (length : Z) : gset str :=
  match date_obj with
  | None => ∅
  | Some d =>
      let day := format_0d 2 (Datetime.day d) in
      let month := format_0d 2 (Datetime.month d) in
      let year_yy := format_0d 2 (Datetime.year d mod 100) in
      let year_yyyy := format_0d 4 (Datetime.year d) in
      let pins : gset str := ∅ in
      if decide (length = 4%Z) then
        pins ∪ list_to_set
          [ day ++ month; month ++ day; year_yyyy; day ++ year_yy;
            year_yy ++ day; month ++ year_yy; year_yy ++ month;
            day ++ day; month ++ month; year_yy ++ year_yy ]
      else if decide (length = 6%Z) then
        pins ∪ list_to_set
          [ day ++ month ++ year_yy; month ++ day ++ year_yy;
            year_yy ++ month ++ day; year_yy ++ day ++ month ]
      else pins
  end.

(** Exceptions the core raises, and the outcome of a call. *)
Inductive exn : Type :=
  | ValueError (msg : str).

Inductive outcome (A : Type) : Type :=
  | Return (a : A)
  | Raise (e : exn).

Arguments Return {A} a.
Arguments Raise {A} e.

(** The dictionary [{"strength": .., "reasons": ..}] that is returned. *)
Record result := mkresult { strength : str; reasons : list str }.

Definition STRONG : str := lit "STRONG".
Definition WEAK : str := lit "WEAK".
Definition COMMONLY_USED : str := lit "COMMONLY_USED".
Definition DEMOGRAPHIC_DOB_SELF : str := lit "DEMOGRAPHIC_DOB_SELF".
Definition DEMOGRAPHIC_DOB_SPOUSE : str := lit "DEMOGRAPHIC_DOB_SPOUSE".
Definition DEMOGRAPHIC_ANNIVERSARY : str := lit "DEMOGRAPHIC_ANNIVERSARY".

Definition dob_self : str := lit "dob_self".
Definition dob_spouse : str := lit "dob_spouse".
Definition anniversary : str := lit "anniversary".

(** [demographic_map.items()], in insertion order. *)
Definition demographic_map : list (str * str) :=
  [ (dob_self, DEMOGRAPHIC_DOB_SELF);
    (dob_spouse, DEMOGRAPHIC_DOB_SPOUSE);
    (anniversary, DEMOGRAPHIC_ANNIVERSARY) ].

(** [demographics.get(key)] read as a condition: a missing key and a
    [None] value are both falsy, a date is truthy; when it is truthy,
    [demographics[key]] is that date. *)
Definition dict_get (demographics : gmap str (option date)) (key : str)
    : option date :=
  match demographics !! key with
  | Some (Some d) => Some d
  | _ => None
  end.

(** One iteration of the loop over [demographic_map.items()]. *)
Definition check_role (mpin : str) (pin_length : Z)
    (demographics : gmap str (option date))
    (reasons : gset str) (item : str * str) : gset str :=
  let (key, reason_code) := item in
  match dict_get demographics key with
  | Some d =>
      let demographic_pins := _generate_demographic_pins (Some d) pin_length in
      if decide (mpin ∈ demographic_pins) then reasons ∪ {[ reason_code ]}
      else reasons
  | None => reasons
  end.

(** [check_mpin_strength] with the list of (key, reason code) items the
    loop runs over made a parameter. *)
Definition check_mpin_strength_over (items : list (str * str))
    (mpin : str) (demographics : option (gmap str (option date)))
    : outcome result :=
  if negb (isdigit mpin) || negb (bool_decide (len mpin ∈ [4; 6]%Z)) then
    Raise (ValueError (lit "MPIN must be a 4 or 6-digit string."))
  else
    let reasons : gset str := ∅ in
    let pin_length := len mpin in
    let common_pins :=
      if decide (pin_length = 4%Z) then COMMONLY_USED_4_DIGIT_PINS
      else COMMONLY_USED_6_DIGIT_PINS in
    let reasons :=
      if decide (mpin ∈ common_pins) then reasons ∪ {[ COMMONLY_USED ]}
      else reasons in
    let reasons :=
      match demographics with
      | None => reasons
      | Some dm =>
          if decide (dm = ∅) then reasons
          else foldl (check_role mpin pin_length dm) reasons items
      end in
    let strength := if decide (reasons = ∅) then STRONG else WEAK in
    Return {| strength := strength; reasons := sorted (elements reasons) |}.

(** [check_mpin_strength(mpin, demographics=None)] *)
Definition check_mpin_strength
    (mpin : str) (demographics : option (gmap str (option date)))
    : outcome result :=
  check_mpin_strength_over demographic_map mpin demographics.

(** ** Vocabulary of the specification *)

(** A decimal digit character, ['0'] to ['9']. *)
Definition is_decimal_digit (c : N) : Prop := 48 <= c <= 57.

(** A valid PIN: only decimal digits, of length 4 or 6. *)
Definition valid_pin (mpin : str) : Prop :=
  Forall is_decimal_digit mpin ∧ (length mpin = 4%nat ∨ length mpin = 6%nat).

(** The common-PIN table matching a PIN of length 4 or 6. *)
Definition common_table (n : nat) : gset str :=
  match n with
  | 4%nat => COMMONLY_USED_4_DIGIT_PINS
  | 6%nat => COMMONLY_USED_6_DIGIT_PINS
  | _ => ∅
  end.

(** The date a demographics argument supplies for a role, if any;
    no map at all supplies nothing. *)
Definition supplied (demographics : option (gmap str (option date)))
    (key : str) : option date :=
  match demographics with
  | None => None
  | Some dm => dict_get dm key
  end.

(** The PIN is one of the patterns of the date supplied for a role. *)
Definition matches_role (demographics : option (gmap str (option date)))
    (key : str) (mpin : str) : Prop :=
  ∃ d, supplied demographics key = Some d ∧
       mpin ∈ _generate_demographic_pins (Some d) (len mpin).

(** A date is present for a role: a demographics map is given and holds
    that date, not [None], under the role's key. *)
Definition date_present (demographics : option (gmap str (option date)))
    (key : str) (d : date) : Prop :=
  ∃ dm, demographics = Some dm ∧ dm !! key = Some (Some d).

(** The PIN is among the patterns generated, at the PIN's length, from
    the date present for a role. *)
Definition pin_matches_date (demographics : option (gmap str (option date)))
    (key : str) (mpin : str) : Prop :=
  ∃ d, date_present demographics key d ∧
       mpin ∈ _generate_demographic_pins (Some d) (len mpin).

(** [d'] supplies every date [d] supplies, and possibly more. *)
Definition extends (d d' : option (gmap str (option date))) : Prop :=
  ∀ key dt, supplied d key = Some dt → supplied d' key = Some dt.

(** The character of a digit value [k < 10]. *)
Definition digit_char (k : N) : N := 48 + k.

(** A number below 100 zero-padded to 2 digits: tens, units. *)
Definition two_digits (n : N) : str :=
  [digit_char (n / 10); digit_char (n mod 10)].

(** A number below 10000 zero-padded to 4 digits. *)
Definition four_digits (n : N) : str :=
  [digit_char (n / 1000); digit_char (n / 100 mod 10);
   digit_char (n / 10 mod 10); digit_char (n mod 10)].

(** The four date fields as the specification names them. *)
Definition dd (d : date) : str := two_digits (day d).
Definition mm (d : date) : str := two_digits (month d).
Definition yy (d : date) : str := two_digits (year d mod 100).
Definition yyyy (d : date) : str := four_digits (year d).

(** ** Sample inputs *)

Definition date_1992_08_15 : date := mkdate 1992 8 15.
Definition date_1994_03_03 : date := mkdate 1994 3 3.
Definition date_2018_11_20 : date := mkdate 2018 11 20.
Definition date_2020_12_20 : date := mkdate 2020 12 20.

Definition test_demographics : option (gmap str (option date)) :=
  Some (<[dob_self := Some date_1992_08_15]>
        (<[dob_spouse := Some date_1994_03_03]>
         (<[anniversary := Some date_2018_11_20]> ∅))).

Definition spouse_only : option (gmap str (option date)) :=
  Some {[ dob_spouse := Some date_1994_03_03 ]}.

Definition spouse_and_self : option (gmap str (option date)) :=
  Some (<[dob_self := Some date_1992_08_15]>
        {[ dob_spouse := Some date_1994_03_03 ]}).

(** Four times SUPERSCRIPT TWO (U+00B2). *)
Definition superscript_pin : str := [178; 178; 178; 178].

(** The digits 1 2 3 4 in ARABIC-INDIC (U+0661 .. U+0664). *)
Definition arabic_indic_pin : str := [1633; 1634; 1635; 1636].

(** The reason codes in the order [sorted] puts them. *)
Definition REASON_ORDER : list str :=
  [ COMMONLY_USED; DEMOGRAPHIC_ANNIVERSARY; DEMOGRAPHIC_DOB_SELF;
    DEMOGRAPHIC_DOB_SPOUSE ].

(** The keys the classifier reads from a demographics map. *)
Definition role_keys : list str := [dob_self; dob_spouse; anniversary].

(** ** The interactive runner *)

(** Library functions the runner calls on what the user types:
    [str.strip], [str.lower], and
    [datetime.datetime.strptime(s, "%Y-%m-%d").date()], which is [None]
    where [strptime] raises ValueError. *)
Record builtins := mkbuiltins {
  strip : str → str;
  lower : str → str;
  strptime_date : str → option date
}.

(** What the runner does on the console: a call of [input(prompt)], or a
    line written by [print]. *)
Inductive io : Type :=
  | Input (prompt : str)
  | Print (line : str).

(** How a run ends: the loop is left by [break], [input] finds no more
    lines, or an exception of the classifier is not caught. [OutOfFuel]
    is the loop bound of the model running out. *)
Inductive ending : Type :=
  | Finished
  | EOFError
  | Uncaught (e : exn)
  | OutOfFuel.

(** [sep.join(l)] *)
Fixpoint join (sep : str) (l : list str) : str :=
  match l with
  | [] => []
  | [s] => s
  | s :: l' => s ++ sep ++ join sep l'
  end.

Definition PROMPT_MPIN : str :=
  10 :: lit "Enter the 4 or 6-digit MPIN to check: ".
Definition PROMPT_DOB_SELF : str := lit "Your DOB (YYYY-MM-DD): ".
Definition PROMPT_DOB_SPOUSE : str := lit "Spouse's DOB (YYYY-MM-DD): ".
Definition PROMPT_ANNIVERSARY : str := lit "Anniversary (YYYY-MM-DD): ".
Definition MSG_INVALID_FORMAT : str :=
  lit "Invalid format. Please use YYYY-MM-DD or press Enter to skip.".
Definition MSG_INVALID_INPUT : str :=
  lit "Invalid input. Please enter a 4 or 6-digit number.".
Definition MSG_PROVIDE_DATES : str :=
  10 :: lit "Please provide dates (or press Enter to skip).".

(** [get_date_from_user(prompt)] on the lines still to be read: the
    console events, and the date returned with the lines left, or [None]
    when [input] raises EOFError. *)
Fixpoint get_date_from_user (B : builtins) (prompt : str)
    (inputs : list str) : list io * option (option date * list str) :=
  match inputs with
  | [] => ([Input prompt], None)
  | date_str :: inputs' =>
      match date_str with
      | [] => ([Input prompt], Some (None, inputs'))
      | _ :: _ =>
          match strptime_date B date_str with
          | Some d => ([Input prompt], Some (Some d, inputs'))
          | None =>
              let (out, res) := get_date_from_user B prompt inputs' in
              (Input prompt :: Print MSG_INVALID_FORMAT :: out, res)
          end
      end
  end.

(** The lines printed after a classification. *)
Definition print_result (mpin : str) (r : result) : list io :=
  [ Print (10 :: lit "--- Analysis Result ---");
    Print (lit "  PIN: " ++ mpin ++ lit ", Strength: " ++ strength r) ] ++
  (match reasons r with
   | [] => []
   | _ :: _ => [Print (lit "  Reasons: " ++ join (lit ", ") (reasons r))]
   end) ++
  [ Print (lit "-----------------------") ].

(** The [while True] loop of [run_interactive_checker]; each iteration
    reads at least one line, [fuel] bounds the number of iterations. *)
Fixpoint interactive_loop (B : builtins) (fuel : nat) (inputs : list str)
    : list io * ending :=
  match fuel with
  | O => ([], OutOfFuel)
  | S fuel' =>
      match inputs with
      | [] => ([Input PROMPT_MPIN], EOFError)
      | line :: inputs =>
          let mpin := strip B line in
          if decide (lower B mpin = lit "quit") then
            ([Input PROMPT_MPIN], Finished)
          else if negb (isdigit mpin)
                  || negb (bool_decide (len mpin ∈ [4; 6]%Z)) then
            let (out, e) := interactive_loop B fuel' inputs in
            (Input PROMPT_MPIN :: Print MSG_INVALID_INPUT :: out, e)
          else
            let head := [Input PROMPT_MPIN; Print MSG_PROVIDE_DATES] in
            match get_date_from_user B PROMPT_DOB_SELF inputs with
            | (out1, None) => (head ++ out1, EOFError)
            | (out1, Some (d1, inputs)) =>
            match get_date_from_user B PROMPT_DOB_SPOUSE inputs with
            | (out2, None) => (head ++ out1 ++ out2, EOFError)
            | (out2, Some (d2, inputs)) =>
            match get_date_from_user B PROMPT_ANNIVERSARY inputs with
            | (out3, None) => (head ++ out1 ++ out2 ++ out3, EOFError)
            | (out3, Some (d3, inputs)) =>
                let user_demographics : gmap str (option date) :=
                  <[dob_self := d1]>
                    (<[dob_spouse := d2]> (<[anniversary := d3]> ∅)) in
                match check_mpin_strength mpin (Some user_demographics) with
                | Raise e => (head ++ out1 ++ out2 ++ out3, Uncaught e)
                | Return r =>
                    let (out, e) := interactive_loop B fuel' inputs in
                    (head ++ out1 ++ out2 ++ out3 ++ print_result mpin r
                       ++ out, e)
                end
            end end end
      end
  end.

(** [run_interactive_checker()] with the lines of standard input given:
    everything written to the console, and how the run ends. *)
Definition run_interactive_checker (B : builtins) (inputs : list str)
    : list io * ending :=
  let (out, e) := interactive_loop B (S (length inputs)) inputs in
  (Print (lit "--- Interactive MPIN Strength Checker ---")
   :: Print (lit "Enter 'quit' at any time to exit.") :: out, e).

(** Stand-ins for the library functions on plain ASCII input without
    surrounding blanks or capitals: [strip] and [lower] leave the line as
    it is, and [strptime] reads exactly [YYYY-MM-DD]. *)
Definition digit_value (c : N) : option N :=
  if (48 <=? c) && (c <=? 57) then Some (c - 48) else None.

Definition parse_iso_date (s : str) : option date :=
  match s with
  | [y1; y2; y3; y4; 45; m1; m2; 45; d1; d2] =>
      match digit_value y1, digit_value y2, digit_value y3, digit_value y4,
            digit_value m1, digit_value m2, digit_value d1, digit_value d2
      with
      | Some a, Some b, Some c, Some e, Some f, Some g, Some h, Some i =>
          let d := mkdate (1000 * a + 100 * b + 10 * c + e) (10 * f + g)
                          (10 * h + i) in
          if decide (valid_date d) then Some d else None
      | _, _, _, _, _, _, _, _ => None
      end
  | _ => None
  end.

Definition plain_builtins : builtins :=
  {| strip := λ s, s; lower := λ s, s; strptime_date := parse_iso_date |}.

Definition sample_session : list str :=
  [ lit "12a4"; lit "1508"; lit "15/08/1992"; lit "1992-08-15"; [];
    lit "2018-11-20"; lit "quit"; lit "1234" ].

(** * Properties *)

(** ** The order on strings and [sorted] *)

Section StringOrder.

Lemma str_leb_refl (a : str) : str_leb a a = true.
Proof.
  induction a as [|x a IH]; simpl; [done|].
  by rewrite N.ltb_irrefl.
Qed.

Lemma str_leb_total (a b : str) : str_leb a b = true ∨ str_leb b a = true.
Proof.
  revert b; induction a as [|x a IH]; intros [|y b]; simpl; auto.
  destruct (N.ltb_spec x y), (N.ltb_spec y x); auto; lia.
Qed.

Lemma str_leb_trans (a b c : str) :
  str_leb a b = true → str_leb b c = true → str_leb a c = true.
Proof.
  revert b c; induction a as [|x a IH]; intros [|y b] [|z c]; simpl;
    try done.
  destruct (N.ltb_spec x y), (N.ltb_spec y x), (N.ltb_spec y z),
    (N.ltb_spec z y), (N.ltb_spec x z), (N.ltb_spec z x);
    try done; try lia; eauto.
Qed.

Lemma str_leb_antisym (a b : str) :
  str_leb a b = true → str_leb b a = true → a = b.
Proof.
  revert b; induction a as [|x a IH]; intros [|y b]; simpl; try done.
  destruct (N.ltb_spec x y), (N.ltb_spec y x); try done; try lia.
  intros Hab Hba. f_equal; [lia | by apply IH].
Qed.

(** [str_le] is the lexicographic order: [a <= b] when [a] is a prefix of
    [b], or at the first position where they differ [a] has the smaller
    code point. *)
Lemma str_le_lexicographic (a b : str) :
  str_le a b ↔
  (∃ s, b = a ++ s) ∨
  (∃ p x y s t, a = p ++ x :: s ∧ b = p ++ y :: t ∧ x < y).
Proof.
  unfold str_le. revert b; induction a as [|x a IH]; intros [|y b]; simpl.
  - split; [|done]. intros _. left. by exists [].
  - split; [|done]. intros _. left. by exists (y :: b).
  - split; [done|]. intros [[s [=]]|(p & x' & y' & s & t & _ & Hb & _)].
    by destruct p.
  - destruct (N.ltb_spec x y) as [Hxy|Hxy].
    { split; [|done]. intros _. right. by exists [], x, y, a, b. }
    destruct (N.ltb_spec y x) as [Hyx|Hyx].
    { split; [done|]. intros [[s [= -> _]]|(p & x' & y' & s & t & Ha & Hb & Hlt)].
      - lia.
      - destruct p as [|z p]; simplify_eq/=; lia. }
    assert (x = y) as -> by lia. rewrite IH. split.
    + intros [[s ->]|(p & x' & y' & s & t & -> & -> & Hlt)].
      * left. by exists s.
      * right. by exists (y :: p), x', y', s, t.
    + intros [[s [= ->]]|(p & x' & y' & s & t & Ha & Hb & Hlt)].
      * left. by exists s.
      * destruct p as [|z p]; simplify_eq/=; [lia|].
        right. by exists p, x', y', s, t.
Qed.

#[export] Instance str_le_refl : Reflexive str_le.
Proof. intros a. apply str_leb_refl. Qed.

#[export] Instance str_le_total : Total str_le.
Proof. intros a b. apply str_leb_total. Qed.

#[export] Instance str_le_trans : Transitive str_le.
Proof. intros a b c. apply str_leb_trans. Qed.

#[export] Instance str_le_antisym : AntiSymm (=) str_le.
Proof. intros a b. apply str_leb_antisym. Qed.

(** In a list without repetitions, sorted means strictly sorted. *)
Lemma StronglySorted_strict (l : list str) :
  StronglySorted str_le l → NoDup l → StronglySorted str_lt l.
Proof.
  induction 1 as [|x l Hl IH Hx]; intros Hnd; [constructor|].
  apply NoDup_cons in Hnd as [Hnotin Hnd].
  constructor; [by apply IH|].
  rewrite Forall_forall in Hx |- *. intros y Hy. split.
  - by apply Hx.
  - intros ->. by apply Hnotin.
Qed.

Lemma sorted_Permutation (l : list str) : sorted l ≡ₚ l.
Proof. apply merge_sort_Permutation. Qed.

Lemma sorted_StronglySorted (l : list str) :
  StronglySorted str_le (sorted l).
Proof. apply StronglySorted_merge_sort; apply _. Qed.

Lemma elem_of_sorted (l : list str) (x : str) : x ∈ sorted l ↔ x ∈ l.
Proof. by rewrite sorted_Permutation. Qed.

(** [sorted(list(s))] of a set: strictly increasing, hence free of
    repetitions, and with the elements of the set. *)
Lemma sorted_elements_strict (s : gset str) :
  StronglySorted str_lt (sorted (elements s)).
Proof.
  apply StronglySorted_strict; [apply sorted_StronglySorted|].
  rewrite sorted_Permutation. apply NoDup_elements.
Qed.

Lemma elem_of_sorted_elements (s : gset str) (x : str) :
  x ∈ sorted (elements s) ↔ x ∈ s.
Proof. by rewrite elem_of_sorted, elem_of_elements. Qed.

Lemma sorted_elements_nil (s : gset str) :
  sorted (elements s) = [] ↔ s = ∅.
Proof.
  split.
  - intros Hnil. apply set_eq. intros x.
    rewrite <- elem_of_sorted_elements, Hnil. set_solver.
  - intros ->. by rewrite elements_empty.
Qed.

End StringOrder.

(** ** [isdigit] *)

Section Digits.

Lemma ISDIGIT_decimal (c : N) :
  is_decimal_digit c → Py_UNICODE_ISDIGIT c = true.
Proof.
  intros [Hlo Hhi]. unfold Py_UNICODE_ISDIGIT.
  apply existsb_exists. exists (48, 57). split.
  - left. reflexivity.
  - unfold in_range. simpl. apply andb_true_iff.
    split; apply N.leb_le; lia.
Qed.

(** Below U+0080 the only digits are ['0'] .. ['9']. *)
Lemma ISDIGIT_ascii (c : N) :
  c < 128 → Py_UNICODE_ISDIGIT c = true → is_decimal_digit c.
Proof.
  intros Hc H. unfold Py_UNICODE_ISDIGIT in H.
  apply existsb_exists in H as [[lo hi] [Hin Hr]].
  unfold in_range in Hr. simpl in Hr.
  apply andb_true_iff in Hr as [Hlo%N.leb_le Hhi%N.leb_le].
  unfold digit_ranges in Hin. simpl in Hin. unfold is_decimal_digit.
  repeat (destruct Hin as [Heq|Hin];
          [injection Heq as <- <-; lia|]).
  done.
Qed.

Lemma isdigit_true (s : str) :
  isdigit s = true ↔ s ≠ [] ∧ Forall (λ c, Py_UNICODE_ISDIGIT c = true) s.
Proof.
  destruct s as [|c s]; simpl.
  - split; [done|]. by intros [? _].
  - change (Py_UNICODE_ISDIGIT c && forallb Py_UNICODE_ISDIGIT s)
      with (forallb Py_UNICODE_ISDIGIT (c :: s)).
    rewrite forallb_forall, Forall_forall.
    split.
    + intros H. split; [done|]. intros x Hx. apply H.
      by apply list_elem_of_In.
    + intros [_ H] x Hx. apply H. by apply list_elem_of_In.
Qed.

Lemma isdigit_false (s : str) :
  isdigit s = false ↔
  s = [] ∨ ∃ c, c ∈ s ∧ Py_UNICODE_ISDIGIT c = false.
Proof.
  rewrite <- not_true_iff_false, isdigit_true.
  split.
  - intros Hn. destruct s as [|c0 s]; [by left|right].
    destruct (decide (Forall (λ c, Py_UNICODE_ISDIGIT c = true) (c0 :: s)))
      as [Hall|Hnall].
    + destruct Hn. by split.
    + apply not_Forall_Exists in Hnall; [|apply _].
      apply Exists_exists in Hnall as (c & Hc & Hnd).
      exists c. split; [done|]. by apply not_true_iff_false.
  - intros [->|(c & Hc & Hnd)] [Hne Hall]; [done|].
    rewrite Forall_forall in Hall. specialize (Hall c Hc). congruence.
Qed.

Lemma valid_pin_isdigit (mpin : str) : valid_pin mpin → isdigit mpin = true.
Proof.
  intros [Hall Hlen]. apply isdigit_true. split.
  - intros ->. simpl in Hlen. lia.
  - eapply Forall_impl; [exact Hall|]. apply ISDIGIT_decimal.
Qed.

Lemma len_4_6 (mpin : str) :
  bool_decide (len mpin ∈ [4; 6]%Z) = true ↔
  length mpin = 4%nat ∨ length mpin = 6%nat.
Proof.
  rewrite bool_decide_eq_true. unfold len.
  rewrite !elem_of_cons, elem_of_nil. lia.
Qed.

End Digits.

(** ** Decimal formatting *)

Section Formatting.

Local Ltac Zify.zify_post_hook ::= Z.to_euclidean_division_equations.

Lemma decimal_digits_S (fuel : nat) (n : N) :
  decimal_digits (S fuel) n =
  if n <? 10 then [48 + n]
  else decimal_digits fuel (n / 10) ++ [48 + n mod 10].
Proof. reflexivity. Qed.

(** Once the fuel covers the digits of [n], more fuel changes nothing. *)
Lemma decimal_digits_fuel (f g : nat) (n : N) :
  n < 10 ^ N.of_nat (S f) → n < 10 ^ N.of_nat (S g) →
  decimal_digits (S f) n = decimal_digits (S g) n.
Proof.
  revert g n; induction f as [|f IH]; intros g n Hf Hg;
    rewrite !decimal_digits_S; destruct (N.ltb_spec n 10) as [|Hn];
    try done.
  - change (10 ^ N.of_nat 1) with 10 in Hf. lia.
  - destruct g as [|g]; [change (10 ^ N.of_nat 1) with 10 in Hg; lia|].
    f_equal. apply IH.
    + rewrite Nat2N.inj_succ, N.pow_succ_r' in Hf. lia.
    + rewrite Nat2N.inj_succ, N.pow_succ_r' in Hg. lia.
Qed.

Lemma pos_lt_pow_size (p : positive) :
  N.pos p < 2 ^ N.of_nat (Pos.size_nat p).
Proof.
  induction p as [p IH|p IH|]; simpl Pos.size_nat;
    rewrite ?Nat2N.inj_succ, ?N.pow_succ_r'; simpl; lia.
Qed.

Lemma lt_pow_size (n : N) : n < 10 ^ N.of_nat (S (N.size_nat n)).
Proof.
  rewrite Nat2N.inj_succ, N.pow_succ_r'.
  assert (n < 2 ^ N.of_nat (N.size_nat n) ∨ n = 0) as [H| ->].
  { destruct n as [|p]; [by right|left]. apply pos_lt_pow_size. }
  - assert (2 ^ N.of_nat (N.size_nat n) <= 10 ^ N.of_nat (N.size_nat n))
      by (apply N.pow_le_mono_l; lia).
    lia.
  - assert (0 < 10 ^ N.of_nat (N.size_nat 0)) by (apply N.neq_0_lt_0, N.pow_nonzero; lia).
    lia.
Qed.

(** The fuel [str_of_int] passes is always enough. *)
Lemma str_of_int_fuel (f : nat) (n : N) :
  n < 10 ^ N.of_nat (S f) → str_of_int n = decimal_digits (S f) n.
Proof.
  intros Hn. unfold str_of_int.
  apply decimal_digits_fuel; [apply lt_pow_size | done].
Qed.

Lemma int_of_digits_snoc (s : str) (c : N) :
  int_of_digits (s ++ [c]) = 10 * int_of_digits s + (c - 48).
Proof. unfold int_of_digits. by rewrite fold_left_app. Qed.

Lemma int_of_decimal_digits (f : nat) (n : N) :
  n < 10 ^ N.of_nat (S f) → int_of_digits (decimal_digits (S f) n) = n.
Proof.
  revert n; induction f as [|f IH]; intros n Hn;
    rewrite decimal_digits_S; destruct (N.ltb_spec n 10) as [|Hge].
  - unfold int_of_digits; simpl. lia.
  - change (10 ^ N.of_nat 1) with 10 in Hn. lia.
  - unfold int_of_digits; simpl. lia.
  - rewrite int_of_digits_snoc, IH.
    + lia.
    + rewrite Nat2N.inj_succ, N.pow_succ_r' in Hn. lia.
Qed.

(** [int(str(n)) == n]: the digits produced denote [n]. *)
Lemma int_of_str_of_int (n : N) : int_of_digits (str_of_int n) = n.
Proof. apply int_of_decimal_digits, lt_pow_size. Qed.

Lemma format_0d_2 (n : N) :
  n < 100 → format_0d 2 n = two_digits n.
Proof.
  intros Hn. unfold format_0d, two_digits, digit_char.
  destruct (N.lt_ge_cases n 10) as [H10|H10].
  - rewrite (str_of_int_fuel 0) by (change (10 ^ N.of_nat 1) with 10; lia).
    rewrite decimal_digits_S.
    destruct (N.ltb_spec n 10); [|lia]. simpl. f_equal; [|f_equal]; lia.
  - rewrite (str_of_int_fuel 1) by (change (10 ^ N.of_nat 2) with 100; lia).
    rewrite !decimal_digits_S.
    destruct (N.ltb_spec n 10); [lia|].
    destruct (N.ltb_spec (n / 10) 10); [|lia]. reflexivity.
Qed.

Lemma format_0d_4 (n : N) :
  n < 10000 →
  format_0d 4 n = four_digits n.
Proof.
  intros Hn. unfold format_0d, four_digits, digit_char.
  destruct (N.lt_ge_cases n 10) as [H10|H10];
    [|destruct (N.lt_ge_cases n 100) as [H100|H100];
      [|destruct (N.lt_ge_cases n 1000) as [H1000|H1000]]].
  - rewrite (str_of_int_fuel 0) by (change (10 ^ N.of_nat 1) with 10; lia).
    rewrite decimal_digits_S.
    destruct (N.ltb_spec n 10); [|lia]. simpl.
    repeat (f_equal; try lia).
  - rewrite (str_of_int_fuel 1) by (change (10 ^ N.of_nat 2) with 100; lia).
    rewrite !decimal_digits_S.
    destruct (N.ltb_spec n 10); [lia|].
    destruct (N.ltb_spec (n / 10) 10); [|lia]. simpl.
    repeat (f_equal; try lia).
  - rewrite (str_of_int_fuel 2) by (change (10 ^ N.of_nat 3) with 1000; lia).
    rewrite !decimal_digits_S.
    destruct (N.ltb_spec n 10); [lia|].
    destruct (N.ltb_spec (n / 10) 10); [lia|].
    destruct (N.ltb_spec (n / 10 / 10) 10); [|lia]. simpl.
    repeat (f_equal; try lia).
  - rewrite (str_of_int_fuel 3) by (change (10 ^ N.of_nat 4) with 10000; lia).
    rewrite !decimal_digits_S.
    destruct (N.ltb_spec n 10); [lia|].
    destruct (N.ltb_spec (n / 10) 10); [lia|].
    destruct (N.ltb_spec (n / 10 / 10) 10); [lia|].
    destruct (N.ltb_spec (n / 10 / 10 / 10) 10); [|lia]. simpl.
    repeat (f_equal; try lia).
Qed.

Lemma two_digits_inj (a b : N) :
  a < 100 → b < 100 → two_digits a = two_digits b → a = b.
Proof.
  intros Ha Hb. unfold two_digits, digit_char. intros [= H1 H2]. lia.
Qed.

(** A four-digit year is its century followed by its last two digits. *)
Lemma four_digits_split (n : N) :
  n < 10000 → four_digits n = two_digits (n / 100) ++ two_digits (n mod 100).
Proof.
  intros Hn. unfold four_digits, two_digits, digit_char. simpl.
  repeat (f_equal; try lia).
Qed.

End Formatting.

(** ** The pattern generator *)

Section PatternGenerator.

Local Ltac Zify.zify_post_hook ::= Z.to_euclidean_division_equations.

Lemma days_in_month_le (y m : N) : days_in_month y m <= 31.
Proof. unfold days_in_month. repeat case_match; lia. Qed.

Lemma valid_date_bounds (d : date) :
  valid_date d → day d < 100 ∧ month d < 100 ∧ year d < 10000.
Proof.
  intros (Hy & Hm & Hd). pose proof (days_in_month_le (year d) (month d)).
  lia.
Qed.

(** On a calendar date the f-strings of the generator are the fields
    [dd], [mm], [yy] and [yyyy]. *)
Lemma fields_of_valid_date (d : date) :
  valid_date d →
  format_0d 2 (day d) = dd d ∧ format_0d 2 (month d) = mm d ∧
  format_0d 2 (year d mod 100) = yy d ∧ format_0d 4 (year d) = yyyy d.
Proof.
  intros (Hd & Hm & Hy)%valid_date_bounds. unfold dd, mm, yy, yyyy.
  rewrite !format_0d_2, format_0d_4 by lia. done.
Qed.

Lemma generate_4 (d : date) :
  valid_date d →
  _generate_demographic_pins (Some d) 4 =
  list_to_set
    [ dd d ++ mm d; mm d ++ dd d; yyyy d; dd d ++ yy d; yy d ++ dd d;
      mm d ++ yy d; yy d ++ mm d; dd d ++ dd d; mm d ++ mm d;
      yy d ++ yy d ].
Proof.
  intros (E1 & E2 & E3 & E4)%fields_of_valid_date.
  unfold _generate_demographic_pins. cbv zeta.
  rewrite decide_True by done.
  by rewrite E1, E2, E3, E4, (left_id_L ∅ (∪)).
Qed.

Lemma generate_6 (d : date) :
  valid_date d →
  _generate_demographic_pins (Some d) 6 =
  list_to_set
    [ dd d ++ mm d ++ yy d; mm d ++ dd d ++ yy d;
      yy d ++ mm d ++ dd d; yy d ++ dd d ++ mm d ].
Proof.
  intros (E1 & E2 & E3 & E4)%fields_of_valid_date.
  unfold _generate_demographic_pins. cbv zeta.
  rewrite decide_False, decide_True by done.
  by rewrite E1, E2, E3, (left_id_L ∅ (∪)).
Qed.

Lemma size_list_to_set_le (l : list str) :
  (size (list_to_set l : gset str) ≤ length l)%nat.
Proof.
  induction l as [|x l IH].
  - change (size (∅ : gset str) ≤ 0)%nat. by rewrite size_empty.
  - change (size ({[x]} ∪ list_to_set l : gset str) ≤ S (length l))%nat.
    rewrite size_union_alt, size_singleton.
    assert (size (list_to_set l ∖ {[x]} : gset str)
            ≤ size (list_to_set l : gset str))%nat
      by (apply subseteq_size, subseteq_difference_l; done).
    lia.
Qed.

Lemma six_digits_inj (a b c a' b' c' : N) :
  a < 100 → b < 100 → c < 100 → a' < 100 → b' < 100 → c' < 100 →
  two_digits a ++ two_digits b ++ two_digits c =
  two_digits a' ++ two_digits b' ++ two_digits c' ↔
  a = a' ∧ b = b' ∧ c = c'.
Proof.
  intros Ha Hb Hc Ha' Hb' Hc'. split.
  - unfold two_digits, digit_char. cbn [app].
    intros [= H1 H2 H3 H4 H5 H6].
    assert (a = a') by (clear - H1 H2 Ha Ha'; lia).
    assert (b = b') by (clear - H3 H4 Hb Hb'; lia).
    assert (c = c') by (clear - H5 H6 Hc Hc'; lia).
    done.
  - by intros (-> & -> & ->).
Qed.

End PatternGenerator.

(** C3. On every calendar date, the generator called with length 4
    returns exactly the ten strings dd+mm, mm+dd, yyyy, dd+yy, yy+dd,
    mm+yy, yy+mm, dd+dd, mm+mm, yy+yy, where dd, mm and yy are two-digit
    zero-padded fields and yyyy is the four-digit zero-padded year. *)
Theorem generate_length_4_exact (d : date) (s : str) :
  valid_date d →
  s ∈ _generate_demographic_pins (Some d) 4 ↔
  s = dd d ++ mm d ∨ s = mm d ++ dd d ∨ s = yyyy d ∨ s = dd d ++ yy d ∨
  s = yy d ++ dd d ∨ s = mm d ++ yy d ∨ s = yy d ++ mm d ∨
  s = dd d ++ dd d ∨ s = mm d ++ mm d ∨ s = yy d ++ yy d.
Proof.
  intros Hd. rewrite generate_4 by done.
  rewrite elem_of_list_to_set, !elem_of_cons, elem_of_nil. tauto.
Qed.

Lemma generate_length_4_exact_witness :
  lit "9215" ∈ _generate_demographic_pins (Some date_1992_08_15) 4 ↔
  lit "9215" = dd date_1992_08_15 ++ mm date_1992_08_15 ∨
  lit "9215" = mm date_1992_08_15 ++ dd date_1992_08_15 ∨
  lit "9215" = yyyy date_1992_08_15 ∨
  lit "9215" = dd date_1992_08_15 ++ yy date_1992_08_15 ∨
  lit "9215" = yy date_1992_08_15 ++ dd date_1992_08_15 ∨
  lit "9215" = mm date_1992_08_15 ++ yy date_1992_08_15 ∨
  lit "9215" = yy date_1992_08_15 ++ mm date_1992_08_15 ∨
  lit "9215" = dd date_1992_08_15 ++ dd date_1992_08_15 ∨
  lit "9215" = mm date_1992_08_15 ++ mm date_1992_08_15 ∨
  lit "9215" = yy date_1992_08_15 ++ yy date_1992_08_15.
Proof.
  apply (generate_length_4_exact date_1992_08_15 (lit "9215")).
  vm_compute. intuition discriminate.
Defined.

(** C4, as the code has it. On every calendar date, the generator called
    with length 6 returns exactly the four strings dd+mm+yy, mm+dd+yy,
    yy+mm+dd, yy+dd+mm. The string yyyy+mm is among them exactly when the
    day equals the century and the month equals yy, or the century, yy and
    the day are all equal; on every other date it is absent. *)
Theorem generate_length_6_exact (d : date) :
  valid_date d →
  (∀ s, s ∈ _generate_demographic_pins (Some d) 6 ↔
        s = dd d ++ mm d ++ yy d ∨ s = mm d ++ dd d ++ yy d ∨
        s = yy d ++ mm d ++ dd d ∨ s = yy d ++ dd d ++ mm d) ∧
  (yyyy d ++ mm d ∈ _generate_demographic_pins (Some d) 6 ↔
   (day d = year d / 100 ∧ month d = year d mod 100) ∨
   (year d / 100 = year d mod 100 ∧ day d = year d mod 100)).
Proof.
  intros Hd.
  assert (Hall : ∀ s, s ∈ _generate_demographic_pins (Some d) 6 ↔
        s = dd d ++ mm d ++ yy d ∨ s = mm d ++ dd d ++ yy d ∨
        s = yy d ++ mm d ++ dd d ∨ s = yy d ++ dd d ++ mm d).
  { intros s. rewrite generate_6 by done.
    rewrite elem_of_list_to_set, !elem_of_cons, elem_of_nil. tauto. }
  split; [exact Hall|].
  rewrite Hall. destruct (valid_date_bounds d Hd) as (Hday & Hmon & Hyr).
  assert (year d / 100 < 100) by (apply N.Div0.div_lt_upper_bound; lia).
  assert (year d mod 100 < 100) by (apply N.mod_upper_bound; lia).
  unfold yyyy. rewrite four_digits_split by done.
  unfold dd, mm, yy. rewrite <- app_assoc.
  rewrite !six_digits_inj by done. lia.
Qed.

Lemma generate_length_6_exact_witness :
  (∀ s, s ∈ _generate_demographic_pins (Some date_2020_12_20) 6 ↔
        s = dd date_2020_12_20 ++ mm date_2020_12_20 ++ yy date_2020_12_20 ∨
        s = mm date_2020_12_20 ++ dd date_2020_12_20 ++ yy date_2020_12_20 ∨
        s = yy date_2020_12_20 ++ mm date_2020_12_20 ++ dd date_2020_12_20 ∨
        s = yy date_2020_12_20 ++ dd date_2020_12_20 ++ mm date_2020_12_20) ∧
  (yyyy date_2020_12_20 ++ mm date_2020_12_20
     ∈ _generate_demographic_pins (Some date_2020_12_20) 6 ↔
   (day date_2020_12_20 = year date_2020_12_20 / 100 ∧
    month date_2020_12_20 = year date_2020_12_20 mod 100) ∨
   (year date_2020_12_20 / 100 = year date_2020_12_20 mod 100 ∧
    day date_2020_12_20 = year date_2020_12_20 mod 100)).
Proof.
  apply (generate_length_6_exact date_2020_12_20).
  vm_compute. intuition discriminate.
Defined.

(** C4 as stated fails on 2020-12-20: yyyy+mm is "202012", which is also
    yy+dd+mm, so it is in the result. *)
Lemma generate_length_6_yyyy_mm_present :
  ¬ (valid_date date_2020_12_20 →
     yyyy date_2020_12_20 ++ mm date_2020_12_20
       ∉ _generate_demographic_pins (Some date_2020_12_20) 6).
Proof.
  intros H. apply H.
  - vm_compute. intuition discriminate.
  - unfold _generate_demographic_pins.
    rewrite decide_False, decide_True by done.
    rewrite elem_of_union, elem_of_list_to_set. right.
    vm_compute. do 3 right. left.
Qed.

(** C7. The generator returns at most 10 strings for length 4 and at most
    4 strings for length 6. *)
Theorem generate_size_bound (d : date) :
  (size (_generate_demographic_pins (Some d) 4) ≤ 10)%nat ∧
  (size (_generate_demographic_pins (Some d) 6) ≤ 4)%nat.
Proof.
  unfold _generate_demographic_pins.
  rewrite decide_True, decide_False, decide_True by done.
  rewrite !(left_id_L ∅ (∪)). split.
  - etrans; [apply size_list_to_set_le|]. simpl. lia.
  - etrans; [apply size_list_to_set_le|]. simpl. lia.
Qed.

(** C10. For a length other than 4 and 6 the generator returns the empty
    set, whatever the date. *)
Theorem generate_other_length_empty (d : date) (length : Z) :
  length ≠ 4%Z → length ≠ 6%Z →
  _generate_demographic_pins (Some d) length = ∅.
Proof.
  intros H4 H6. unfold _generate_demographic_pins.
  by rewrite !decide_False by done.
Qed.

Lemma generate_other_length_empty_witness :
  _generate_demographic_pins (Some date_1992_08_15) 5 = ∅.
Proof.
  apply (generate_other_length_empty date_1992_08_15 5); lia.
Defined.

(** ** The classifier *)

Section Classifier.

Implicit Types (mpin : str) (dm : gmap str (option date)).
Implicit Types (demographics : option (gmap str (option date))).
Implicit Types (items : list (str * str)).

Lemma reason_codes_distinct :
  NoDup [COMMONLY_USED; DEMOGRAPHIC_DOB_SELF; DEMOGRAPHIC_DOB_SPOUSE;
         DEMOGRAPHIC_ANNIVERSARY].
Proof.
  apply (bool_decide_unpack _).
  vm_compute. exact I.
Qed.

Lemma STRONG_neq_WEAK : STRONG ≠ WEAK.
Proof. discriminate. Qed.

(** What the loop over the items adds to the reasons. *)
Lemma foldl_check_role items mpin (n : Z) dm (acc : gset str) (c : str) :
  c ∈ foldl (check_role mpin n dm) acc items ↔
  c ∈ acc ∨
  ∃ key d, (key, c) ∈ items ∧ dict_get dm key = Some d ∧
           mpin ∈ _generate_demographic_pins (Some d) n.
Proof.
  revert acc; induction items as [|[key code] items IH]; intros acc; simpl.
  - split; [by left|]. intros [?|(? & ? & []%elem_of_nil & _)]. done.
  - rewrite IH. unfold check_role.
    destruct (dict_get dm key) as [d|] eqn:Hget.
    + case_decide as Hin.
      * rewrite elem_of_union, elem_of_singleton. split.
        -- intros [[?| ->]|(k & d' & Hk & ?)]; [by left| |].
           ++ right. exists key, d. rewrite elem_of_cons. auto.
           ++ right. exists k, d'. rewrite elem_of_cons. auto.
        -- intros [?|(k & d' & Hk & Hg & Hm)]; [by left; left|].
           apply elem_of_cons in Hk as [[= -> ->]|Hk]; [by left; right|].
           right. by exists k, d'.
      * split.
        -- intros [?|(k & d' & Hk & ?)]; [by left|].
           right. exists k, d'. rewrite elem_of_cons. auto.
        -- intros [?|(k & d' & Hk & Hg & Hm)]; [by left|].
           apply elem_of_cons in Hk as [[= -> ->]|Hk]; [|right; by exists k, d'].
           rewrite Hget in Hg. by injection Hg as ->.
    + split.
      * intros [?|(k & d' & Hk & ?)]; [by left|].
        right. exists k, d'. rewrite elem_of_cons. auto.
      * intros [?|(k & d' & Hk & Hg & Hm)]; [by left|].
        apply elem_of_cons in Hk as [[= -> ->]|Hk]; [congruence|].
        right. by exists k, d'.
Qed.

Lemma dict_get_empty (key : str) : dict_get ∅ key = None.
Proof. unfold dict_get. by rewrite lookup_empty. Qed.

Lemma common_pins_table mpin :
  length mpin = 4%nat ∨ length mpin = 6%nat →
  (if decide (len mpin = 4%Z) then COMMONLY_USED_4_DIGIT_PINS
   else COMMONLY_USED_6_DIGIT_PINS) = common_table (length mpin).
Proof. unfold len. intros [-> | ->]; reflexivity. Qed.

(** Past the guard the call returns, and the set it sorts is described
    by the common table and the items of the loop. *)
Lemma check_over_returns items mpin demographics :
  isdigit mpin = true → length mpin = 4%nat ∨ length mpin = 6%nat →
  ∃ R : gset str,
    check_mpin_strength_over items mpin demographics =
      Return {| strength := if decide (R = ∅) then STRONG else WEAK;
                reasons := sorted (elements R) |} ∧
    ∀ c, c ∈ R ↔
         (c = COMMONLY_USED ∧ mpin ∈ common_table (length mpin)) ∨
         (∃ key, (key, c) ∈ items ∧ matches_role demographics key mpin).
Proof.
  intros Hdig Hlen. unfold check_mpin_strength_over.
  rewrite Hdig, (proj2 (len_4_6 mpin) Hlen). cbn [negb orb].
  rewrite common_pins_table by done.
  eexists. split; [reflexivity|]. intros c.
  set (R0 := if decide (mpin ∈ common_table (length mpin))
             then (∅ : gset str) ∪ {[COMMONLY_USED]} else ∅).
  assert (HR0 : c ∈ R0 ↔ c = COMMONLY_USED ∧ mpin ∈ common_table (length mpin)).
  { unfold R0. case_decide.
    - rewrite elem_of_union, elem_of_singleton, elem_of_empty. tauto.
    - rewrite elem_of_empty. tauto. }
  unfold matches_role.
  destruct demographics as [dm|]; [case_decide as Hdm|].
  - subst dm. rewrite HR0. split; [by left|].
    intros [?|(key & _ & d & Hs & _)]; [done|].
    simpl in Hs. by rewrite dict_get_empty in Hs.
  - rewrite foldl_check_role, HR0. simpl supplied. split.
    + intros [?|(key & d & ? & ? & ?)]; [by left|right].
      exists key. split; [done|]. by exists d.
    + intros [?|(key & ? & d & ? & ?)]; [by left|right]. by exists key, d.
  - rewrite HR0. split; [by left|].
    by intros [?|(key & _ & d & Hs & _)].
Qed.

Lemma check_over_raises items mpin demographics :
  isdigit mpin = false ∨ ¬ (length mpin = 4%nat ∨ length mpin = 6%nat) →
  check_mpin_strength_over items mpin demographics =
  Raise (ValueError (lit "MPIN must be a 4 or 6-digit string.")).
Proof.
  intros H. unfold check_mpin_strength_over.
  destruct H as [-> | Hlen]; [done|].
  rewrite <- len_4_6, not_true_iff_false in Hlen. rewrite Hlen.
  by rewrite orb_true_r.
Qed.

(** The guard, read off the outcome. *)
Lemma check_over_raises_iff items mpin demographics :
  (∃ e, check_mpin_strength_over items mpin demographics = Raise e) ↔
  isdigit mpin = false ∨ ¬ (length mpin = 4%nat ∨ length mpin = 6%nat).
Proof.
  split.
  - intros [e He].
    destruct (isdigit mpin) eqn:Hdig; [|by left]. right. intros Hlen.
    destruct (check_over_returns items mpin demographics Hdig Hlen)
      as (R & HR & _).
    congruence.
  - intros H. eexists. by apply check_over_raises.
Qed.

Lemma elem_of_demographic_map (key c : str) :
  (key, c) ∈ demographic_map ↔
  (key = dob_self ∧ c = DEMOGRAPHIC_DOB_SELF) ∨
  (key = dob_spouse ∧ c = DEMOGRAPHIC_DOB_SPOUSE) ∨
  (key = anniversary ∧ c = DEMOGRAPHIC_ANNIVERSARY).
Proof.
  unfold demographic_map. rewrite !elem_of_cons, elem_of_nil.
  split.
  - intros [[= -> ->]|[[= -> ->]|[[= -> ->]|[]]]]; auto.
  - intros [[-> ->]|[[-> ->]|[-> ->]]]; auto.
Qed.

Lemma extends_matches_role (d d' : option (gmap str (option date)))
    (key : str) mpin :
  extends d d' → matches_role d key mpin → matches_role d' key mpin.
Proof. intros Hext (dt & Hs & Hm). exists dt. split; [by apply Hext|done]. Qed.

End Classifier.

(** ** Claims about [check_mpin_strength] *)

(** C9. Totality on valid input: for a PIN of decimal digits of length 4
    or 6 and any demographics argument (a map or none), the call returns a
    result; the raising branch is not taken. *)
Theorem check_total_on_valid
    (mpin : str) (demographics : option (gmap str (option date))) :
  valid_pin mpin →
  (∃ r, check_mpin_strength mpin demographics = Return r) ∧
  (∀ e, check_mpin_strength mpin demographics ≠ Raise e).
Proof.
  intros Hv.
  destruct (check_over_returns demographic_map mpin demographics
              (valid_pin_isdigit mpin Hv) (proj2 Hv)) as (R & HR & _).
  unfold check_mpin_strength. rewrite HR. split; [by eexists|done].
Qed.

Lemma valid_pin_5839 : valid_pin (lit "5839").
Proof.
  split; [|by left].
  repeat constructor; unfold is_decimal_digit; simpl; lia.
Defined.

Lemma check_total_on_valid_witness :
  (∃ r, check_mpin_strength (lit "5839") test_demographics = Return r) ∧
  (∀ e, check_mpin_strength (lit "5839") test_demographics ≠ Raise e).
Proof.
  apply (check_total_on_valid (lit "5839") test_demographics).
  exact valid_pin_5839.
Defined.

(** What the code's lookup [demographics.get(key)] finds is the date
    present in the map. *)
Lemma supplied_date_present
    (demographics : option (gmap str (option date))) (key : str) (d : date) :
  supplied demographics key = Some d ↔ date_present demographics key d.
Proof.
  unfold supplied, dict_get, date_present. split.
  - destruct demographics as [dm|]; [|done].
    destruct (dm !! key) as [[d'|]|] eqn:Hk; try done.
    intros [= ->]. by exists dm.
  - intros (dm & -> & ->). done.
Qed.

Lemma matches_role_pin_matches_date
    (demographics : option (gmap str (option date))) (key mpin : str) :
  matches_role demographics key mpin ↔ pin_matches_date demographics key mpin.
Proof.
  unfold matches_role, pin_matches_date.
  by setoid_rewrite supplied_date_present.
Qed.

(** C1. On a valid PIN the reasons returned are exactly: COMMONLY_USED
    when the PIN is in the common table of its length, and for each of the
    roles dob_self, dob_spouse, anniversary whose date is present in the
    demographics map, the role's reason code when the PIN is among the
    patterns generated from that date at the PIN's length. A PIN outside
    the common table that matches no present date is STRONG with no
    reasons. *)
Theorem check_reasons_exact
    (mpin : str) (demographics : option (gmap str (option date))) :
  valid_pin mpin →
  ∃ r, check_mpin_strength mpin demographics = Return r ∧
    (∀ c, c ∈ reasons r ↔
       (c = COMMONLY_USED ∧ mpin ∈ common_table (length mpin)) ∨
       (c = DEMOGRAPHIC_DOB_SELF ∧
        pin_matches_date demographics dob_self mpin) ∨
       (c = DEMOGRAPHIC_DOB_SPOUSE ∧
        pin_matches_date demographics dob_spouse mpin) ∨
       (c = DEMOGRAPHIC_ANNIVERSARY ∧
        pin_matches_date demographics anniversary mpin)) ∧
    (mpin ∉ common_table (length mpin) →
     ¬ pin_matches_date demographics dob_self mpin →
     ¬ pin_matches_date demographics dob_spouse mpin →
     ¬ pin_matches_date demographics anniversary mpin →
     strength r = STRONG ∧ reasons r = []).
Proof.
  intros Hv.
  destruct (check_over_returns demographic_map mpin demographics
              (valid_pin_isdigit mpin Hv) (proj2 Hv)) as (R & HR & Hin).
  eexists. split; [exact HR|]. cbn [reasons strength].
  assert (Hchar : ∀ c, c ∈ R ↔
       (c = COMMONLY_USED ∧ mpin ∈ common_table (length mpin)) ∨
       (c = DEMOGRAPHIC_DOB_SELF ∧
        pin_matches_date demographics dob_self mpin) ∨
       (c = DEMOGRAPHIC_DOB_SPOUSE ∧
        pin_matches_date demographics dob_spouse mpin) ∨
       (c = DEMOGRAPHIC_ANNIVERSARY ∧
        pin_matches_date demographics anniversary mpin)).
  { intros c. rewrite Hin, <- !matches_role_pin_matches_date. split.
    - intros [?|(key & Hk & Hm)]; [by left|right].
      apply elem_of_demographic_map in Hk
        as [[-> ->]|[[-> ->]|[-> ->]]]; auto.
    - intros [?|Hroles]; [by left|right].
      destruct Hroles as [[-> Hm]|[[-> Hm]|[-> Hm]]];
        eexists; (split; [|exact Hm]); apply elem_of_demographic_map; auto. }
  split.
  - intros c. by rewrite elem_of_sorted_elements.
  - intros Hc Hs Hp Ha.
    assert (R = ∅) as ->.
    { apply set_eq. intros c. rewrite Hchar, elem_of_empty. tauto. }
    rewrite decide_True by done. by rewrite elements_empty.
Qed.

Lemma valid_pin_1994 : valid_pin (lit "1994").
Proof.
  split; [|by left].
  repeat constructor; unfold is_decimal_digit; simpl; lia.
Defined.

Lemma check_reasons_exact_witness :
  ∃ r, check_mpin_strength (lit "1994") test_demographics = Return r ∧
    (∀ c, c ∈ reasons r ↔
       (c = COMMONLY_USED ∧
        lit "1994" ∈ common_table (length (lit "1994"))) ∨
       (c = DEMOGRAPHIC_DOB_SELF ∧
        pin_matches_date test_demographics dob_self (lit "1994")) ∨
       (c = DEMOGRAPHIC_DOB_SPOUSE ∧
        pin_matches_date test_demographics dob_spouse (lit "1994")) ∨
       (c = DEMOGRAPHIC_ANNIVERSARY ∧
        pin_matches_date test_demographics anniversary (lit "1994"))) ∧
    (lit "1994" ∉ common_table (length (lit "1994")) →
     ¬ pin_matches_date test_demographics dob_self (lit "1994") →
     ¬ pin_matches_date test_demographics dob_spouse (lit "1994") →
     ¬ pin_matches_date test_demographics anniversary (lit "1994") →
     strength r = STRONG ∧ reasons r = []).
Proof.
  apply (check_reasons_exact (lit "1994") test_demographics).
  exact valid_pin_1994.
Defined.

(** C5. On valid input the strength is STRONG exactly when the reasons
    are empty and WEAK exactly when they are not. *)
Theorem strength_iff_reasons
    (mpin : str) (demographics : option (gmap str (option date))) :
  valid_pin mpin →
  ∃ r, check_mpin_strength mpin demographics = Return r ∧
    (strength r = STRONG ↔ reasons r = []) ∧
    (strength r = WEAK ↔ reasons r ≠ []).
Proof.
  intros Hv.
  destruct (check_over_returns demographic_map mpin demographics
              (valid_pin_isdigit mpin Hv) (proj2 Hv)) as (R & HR & _).
  eexists. split; [exact HR|]. cbn [reasons strength].
  rewrite sorted_elements_nil. pose proof STRONG_neq_WEAK.
  case_decide; split; split; intros; congruence.
Qed.

Lemma valid_pin_1992 : valid_pin (lit "1992").
Proof.
  split; [|by left].
  repeat constructor; unfold is_decimal_digit; simpl; lia.
Defined.

Lemma strength_iff_reasons_witness :
  ∃ r, check_mpin_strength (lit "1992") test_demographics = Return r ∧
    (strength r = STRONG ↔ reasons r = []) ∧
    (strength r = WEAK ↔ reasons r ≠ []).
Proof.
  apply (strength_iff_reasons (lit "1992") test_demographics).
  exact valid_pin_1992.
Defined.

(** C6. On valid input the reasons list is sorted in the lexicographic
    order of the tag names and has no repetition, and running the loop
    over the roles in any other order returns the same result. *)
Theorem reasons_sorted_nodup
    (mpin : str) (demographics : option (gmap str (option date))) :
  valid_pin mpin →
  ∃ r, check_mpin_strength mpin demographics = Return r ∧
    StronglySorted str_le (reasons r) ∧
    NoDup (reasons r) ∧
    ∀ items, items ≡ₚ demographic_map →
      check_mpin_strength_over items mpin demographics = Return r.
Proof.
  intros Hv.
  destruct (check_over_returns demographic_map mpin demographics
              (valid_pin_isdigit mpin Hv) (proj2 Hv)) as (R & HR & Hin).
  eexists. split; [exact HR|]. cbn [reasons]. split; [|split].
  - apply sorted_StronglySorted.
  - rewrite sorted_Permutation. apply NoDup_elements.
  - intros items Hperm.
    destruct (check_over_returns items mpin demographics
                (valid_pin_isdigit mpin Hv) (proj2 Hv)) as (R' & HR' & Hin').
    assert (R' = R) as ->; [|done].
    apply set_eq. intros c. rewrite Hin, Hin'.
    by setoid_rewrite Hperm.
Qed.

Lemma valid_pin_1111 : valid_pin (lit "1111").
Proof.
  split; [|by left].
  repeat constructor; unfold is_decimal_digit; simpl; lia.
Defined.

Lemma reasons_sorted_nodup_witness :
  ∃ r, check_mpin_strength (lit "1111") test_demographics = Return r ∧
    StronglySorted str_le (reasons r) ∧
    NoDup (reasons r) ∧
    ∀ items, items ≡ₚ demographic_map →
      check_mpin_strength_over items (lit "1111") test_demographics
      = Return r.
Proof.
  apply (reasons_sorted_nodup (lit "1111") test_demographics).
  exact valid_pin_1111.
Defined.

(** C8. Monotonicity in the demographics: when [d'] supplies every date
    [d] supplies and possibly more, every reason returned under [d] is
    returned under [d']; a WEAK verdict stays WEAK, and a STRONG verdict
    under [d'] was STRONG under [d]. *)
Theorem reasons_monotone
    (mpin : str) (d d' : option (gmap str (option date))) :
  valid_pin mpin → extends d d' →
  ∃ r r', check_mpin_strength mpin d = Return r ∧
          check_mpin_strength mpin d' = Return r' ∧
          (∀ c, c ∈ reasons r → c ∈ reasons r') ∧
          (strength r = WEAK → strength r' = WEAK) ∧
          (strength r' = STRONG → strength r = STRONG).
Proof.
  intros Hv Hext.
  destruct (check_over_returns demographic_map mpin d
              (valid_pin_isdigit mpin Hv) (proj2 Hv)) as (R & HR & Hin).
  destruct (check_over_returns demographic_map mpin d'
              (valid_pin_isdigit mpin Hv) (proj2 Hv)) as (R' & HR' & Hin').
  exists {| strength := if decide (R = ∅) then STRONG else WEAK;
            reasons := sorted (elements R) |},
         {| strength := if decide (R' = ∅) then STRONG else WEAK;
            reasons := sorted (elements R') |}.
  split; [exact HR|]. split; [exact HR'|]. cbn [reasons strength].
  assert (Hsub : ∀ c, c ∈ R → c ∈ R').
  { intros c. rewrite Hin, Hin'. intros [?|(key & Hk & Hm)]; [by left|right].
    exists key. split; [done|]. by apply (extends_matches_role d d'). }
  assert (Hempty : R' = ∅ → R = ∅).
  { intros ->. apply set_eq. intros c. split; [|by rewrite elem_of_empty].
    apply Hsub. }
  pose proof STRONG_neq_WEAK. split; [|split].
  - intros c. rewrite !elem_of_sorted_elements. apply Hsub.
  - repeat case_decide; intros; try done. by destruct (Hempty ltac:(done)).
  - repeat case_decide; intros; try done. by destruct (Hempty ltac:(done)).
Qed.

Lemma valid_pin_1508 : valid_pin (lit "1508").
Proof.
  split; [|by left].
  repeat constructor; unfold is_decimal_digit; simpl; lia.
Defined.

Lemma extends_spouse_self : extends spouse_only spouse_and_self.
Proof.
  intros key dt. unfold spouse_only, spouse_and_self, supplied, dict_get.
  destruct (decide (key = dob_self)) as [->|Hne].
  - rewrite lookup_singleton_ne; [simpl; discriminate|].
    vm_compute. discriminate.
  - by rewrite lookup_insert_ne.
Defined.

Lemma reasons_monotone_witness :
  ∃ r r', check_mpin_strength (lit "1508") spouse_only = Return r ∧
          check_mpin_strength (lit "1508") spouse_and_self = Return r' ∧
          (∀ c, c ∈ reasons r → c ∈ reasons r') ∧
          (strength r = WEAK → strength r' = WEAK) ∧
          (strength r' = STRONG → strength r = STRONG).
Proof.
  apply (reasons_monotone (lit "1508") spouse_only spouse_and_self).
  - exact valid_pin_1508.
  - exact extends_spouse_self.
Defined.

(** The guard as it is written. The call raises ValueError exactly when
    the PIN is empty, or has a character that [str.isdigit] rejects, or its
    length is neither 4 nor 6; a call that raises returns no result. On a
    PIN of ASCII characters the guard does what the message of the error
    promises: it raises exactly when the PIN is not made of the decimal
    digits 0 to 9 only, or its length is neither 4 nor 6. Beyond ASCII it
    lets other digit characters through. *)
Theorem check_raises_iff
    (mpin : str) (demographics : option (gmap str (option date))) :
  ((∃ e, check_mpin_strength mpin demographics = Raise e) ↔
   mpin = [] ∨ (∃ c, c ∈ mpin ∧ Py_UNICODE_ISDIGIT c = false) ∨
   ¬ (length mpin = 4%nat ∨ length mpin = 6%nat)) ∧
  ((∃ e, check_mpin_strength mpin demographics = Raise e) →
   check_mpin_strength mpin demographics =
     Raise (ValueError (lit "MPIN must be a 4 or 6-digit string.")) ∧
   ∀ r, check_mpin_strength mpin demographics ≠ Return r) ∧
  (Forall (λ c, c < 128) mpin →
   (∃ e, check_mpin_strength mpin demographics = Raise e) ↔
   ¬ valid_pin mpin).
Proof.
  unfold check_mpin_strength.
  rewrite check_over_raises_iff. split; [|split].
  - rewrite isdigit_false. tauto.
  - intros H. rewrite (check_over_raises _ _ _ H). done.
  - intros Hascii. unfold valid_pin. split.
    + intros [Hdig|Hlen] [Hall Hl]; [|done].
      rewrite (valid_pin_isdigit mpin) in Hdig; [done|by split].
    + intros Hnv. destruct (isdigit mpin) eqn:Hdig; [right|by left].
      intros Hlen. apply Hnv. split; [|done].
      apply isdigit_true in Hdig as [_ Hdig].
      rewrite Forall_forall in Hdig, Hascii |- *.
      intros c Hc. apply ISDIGIT_ascii; auto.
Qed.

Lemma check_raises_iff_witness :
  (∃ e, check_mpin_strength (lit "12a4") None = Raise e) ↔
  ¬ valid_pin (lit "12a4").
Proof.
  apply (check_raises_iff (lit "12a4") None).
  repeat constructor; simpl; lia.
Defined.

(** The equivalence between raising and not being a valid PIN breaks on
    a PIN of four SUPERSCRIPT TWO characters. *)
Lemma check_accepts_superscript_pin :
  ¬ ((∃ e, check_mpin_strength superscript_pin None = Raise e) ↔
     ¬ valid_pin superscript_pin).
Proof.
  intros [_ H]. destruct H as [e He].
  - intros [Hall _]. apply Forall_cons in Hall as [[_ Hhi] _]. lia.
  - vm_compute in He. discriminate.
Qed.

(** C2, a defect of the guard. The claim asks for the INVALID_INPUT error
    on every PIN that is not made of the decimal digits 0 to 9, and the
    error message says the same. The guard tests [str.isdigit], which also
    holds for digit characters outside ASCII: the PIN of four SUPERSCRIPT
    TWO characters is not a valid PIN, yet the call does not raise and
    returns STRONG with no reasons. *)
Theorem check_superscript_pin_not_rejected :
  ¬ valid_pin superscript_pin ∧
  (∀ e, check_mpin_strength superscript_pin None ≠ Raise e) ∧
  check_mpin_strength superscript_pin None =
    Return {| strength := STRONG; reasons := [] |}.
Proof.
  assert (Hret : check_mpin_strength superscript_pin None =
                 Return {| strength := STRONG; reasons := [] |})
    by (vm_compute; reflexivity).
  split; [|split].
  - intros [Hall _]. apply Forall_cons in Hall as [[_ Hhi] _]. lia.
  - intros e. rewrite Hret. discriminate.
  - exact Hret.
Qed.

(** ** Scenarios of the notebook's test suite *)

(** The PIN 1994 with the dates of the test suite: the spouse's date is
    present in the map and 1994 is its yyyy pattern. *)
Example spouse_date_present_and_matched :
  date_present test_demographics dob_spouse date_1994_03_03 ∧
  pin_matches_date test_demographics dob_spouse (lit "1994") ∧
  ¬ pin_matches_date test_demographics dob_self (lit "1994").
Proof.
  assert (Hp : date_present test_demographics dob_spouse date_1994_03_03).
  { eexists. split; [reflexivity|]. vm_compute. reflexivity. }
  split; [done|]. split.
  - exists date_1994_03_03. split; [done|].
    unfold _generate_demographic_pins. rewrite decide_True by done.
    rewrite elem_of_union, elem_of_list_to_set. right.
    vm_compute. do 2 right. left.
  - intros (d & (dm & [= <-] & Hk) & Hin).
    vm_compute in Hk. injection Hk as <-.
    revert Hin. apply (bool_decide_unpack _). vm_compute. exact I.
Qed.

Example test_strong_4_digit_pin :
  check_mpin_strength (lit "5839") test_demographics =
  Return {| strength := STRONG; reasons := [] |}.
Proof. vm_compute. reflexivity. Qed.

Example test_weak_4_digit_repeating :
  check_mpin_strength (lit "1111") test_demographics =
  Return {| strength := WEAK;
            reasons := [COMMONLY_USED; DEMOGRAPHIC_ANNIVERSARY] |}.
Proof. vm_compute. reflexivity. Qed.

Example test_weak_4_digit_from_self_dob_yyyy :
  check_mpin_strength (lit "1992") test_demographics =
  Return {| strength := WEAK;
            reasons := [COMMONLY_USED; DEMOGRAPHIC_DOB_SELF] |}.
Proof. vm_compute. reflexivity. Qed.

Example test_weak_4_digit_from_spouse_dob_mmdd :
  check_mpin_strength (lit "0303") test_demographics =
  Return {| strength := WEAK; reasons := [DEMOGRAPHIC_DOB_SPOUSE] |}.
Proof. vm_compute. reflexivity. Qed.

Example test_weak_6_digit_from_self_dob_ddmmyy :
  check_mpin_strength (lit "150892") test_demographics =
  Return {| strength := WEAK; reasons := [DEMOGRAPHIC_DOB_SELF] |}.
Proof. vm_compute. reflexivity. Qed.

Example test_weak_6_digit_from_anniversary_ddmmyy :
  check_mpin_strength (lit "201118") test_demographics =
  Return {| strength := WEAK; reasons := [DEMOGRAPHIC_ANNIVERSARY] |}.
Proof. vm_compute. reflexivity. Qed.

Example test_no_demographics_provided_strong :
  check_mpin_strength (lit "1508") None =
  Return {| strength := STRONG; reasons := [] |}.
Proof. vm_compute. reflexivity. Qed.

Example test_invalid_pin_length :
  check_mpin_strength (lit "123") None =
    Raise (ValueError (lit "MPIN must be a 4 or 6-digit string.")) ∧
  check_mpin_strength (lit "12345") None =
    Raise (ValueError (lit "MPIN must be a 4 or 6-digit string.")) ∧
  check_mpin_strength (lit "abcdef") None =
    Raise (ValueError (lit "MPIN must be a 4 or 6-digit string.")).
Proof. vm_compute. auto. Qed.

(** Digits outside ASCII pass the guard: the PIN is classified, and is
    compared with tables and patterns that hold ASCII digits only. *)
Example non_ascii_digits_are_classified :
  check_mpin_strength superscript_pin test_demographics =
    Return {| strength := STRONG; reasons := [] |} ∧
  check_mpin_strength arabic_indic_pin test_demographics =
    Return {| strength := STRONG; reasons := [] |}.
Proof. vm_compute. auto. Qed.

(** The size bounds of the generator are reached. *)
Example generate_size_reached :
  size (_generate_demographic_pins (Some date_1992_08_15) 4) = 10%nat ∧
  size (_generate_demographic_pins (Some date_1992_08_15) 6) = 4%nat ∧
  size (_generate_demographic_pins (Some date_1994_03_03) 4) = 5%nat.
Proof. vm_compute. auto. Qed.

(** * Further properties of the core *)

Section Patterns.

Local Ltac Zify.zify_post_hook ::= Z.to_euclidean_division_equations.

Lemma decimal_digits_decimal (fuel : nat) (n : N) :
  Forall is_decimal_digit (decimal_digits fuel n).
Proof.
  revert n; induction fuel as [|fuel IH]; intros n; [constructor|].
  rewrite decimal_digits_S. destruct (N.ltb_spec n 10).
  - repeat constructor; unfold is_decimal_digit; lia.
  - apply Forall_app. split; [apply IH|].
    repeat constructor; unfold is_decimal_digit; lia.
Qed.

(** Whatever the number and the width, [format_0d] writes decimal digits
    only. *)
Lemma format_0d_decimal (width : nat) (n : N) :
  Forall is_decimal_digit (format_0d width n).
Proof.
  unfold format_0d. apply Forall_app. split.
  - apply Forall_replicate. unfold is_decimal_digit. lia.
  - apply decimal_digits_decimal.
Qed.

Lemma length_two_digits (n : N) : length (two_digits n) = 2%nat.
Proof. reflexivity. Qed.

Lemma length_four_digits (n : N) : length (four_digits n) = 4%nat.
Proof. reflexivity. Qed.

(** Every string the generator can return, for any date and length, is
    made of decimal digits. *)
Lemma generated_decimal (d : date) (n : Z) (s : str) :
  s ∈ _generate_demographic_pins (Some d) n → Forall is_decimal_digit s.
Proof.
  unfold _generate_demographic_pins. cbv zeta.
  destruct (decide (n = 4%Z)) as [_|_]; [|destruct (decide (n = 6%Z)) as [_|_]];
    rewrite ?(left_id_L ∅ (∪)), ?elem_of_list_to_set, ?elem_of_cons,
      ?elem_of_nil, ?elem_of_empty; [| |done].
  - intros Hs; repeat (destruct Hs as [->|Hs]); [..|done];
      rewrite ?Forall_app; auto using format_0d_decimal.
  - intros Hs; repeat (destruct Hs as [->|Hs]); [..|done];
      rewrite ?Forall_app; auto using format_0d_decimal.
Qed.

(** On a calendar date the strings returned have the length asked for. *)
Lemma generated_length (d : date) (n : Z) (s : str) :
  valid_date d → s ∈ _generate_demographic_pins (Some d) n → len s = n.
Proof.
  intros Hd. destruct (decide (n = 4%Z)) as [->|H4];
    [|destruct (decide (n = 6%Z)) as [->|H6]].
  - rewrite generate_4 by done.
    rewrite elem_of_list_to_set, !elem_of_cons, elem_of_nil.
    intros Hs; repeat (destruct Hs as [->|Hs]); done.
  - rewrite generate_6 by done.
    rewrite elem_of_list_to_set, !elem_of_cons, elem_of_nil.
    intros Hs; repeat (destruct Hs as [->|Hs]); done.
  - unfold _generate_demographic_pins. rewrite !decide_False by done.
    by rewrite elem_of_empty.
Qed.

Lemma generated_valid_pin (d : date) (n : Z) (s : str) :
  valid_date d → s ∈ _generate_demographic_pins (Some d) n →
  valid_pin s ∧ len s = n.
Proof.
  intros Hd Hs. pose proof (generated_length d n s Hd Hs) as Hlen.
  split; [|done]. split; [by eapply generated_decimal|].
  destruct (decide (n = 4%Z)) as [->|H4];
    [|destruct (decide (n = 6%Z)) as [->|H6]].
  - left. unfold len in Hlen. lia.
  - right. unfold len in Hlen. lia.
  - unfold _generate_demographic_pins in Hs.
    rewrite !decide_False in Hs by done. by apply elem_of_empty in Hs.
Qed.

End Patterns.

(** X1. On a calendar date, every string the generator returns is a valid
    PIN of the length asked for: decimal digits only, 4 or 6 of them. *)
Theorem generated_patterns_are_pins (d : date) (n : Z) (s : str) :
  valid_date d → s ∈ _generate_demographic_pins (Some d) n →
  valid_pin s ∧ len s = n.
Proof. apply generated_valid_pin. Qed.

Lemma generated_patterns_are_pins_witness :
  valid_pin (lit "920815") ∧ len (lit "920815") = 6%Z.
Proof.
  apply (generated_patterns_are_pins date_1992_08_15 6 (lit "920815")).
  - vm_compute. intuition discriminate.
  - unfold _generate_demographic_pins.
    rewrite decide_False, decide_True by done.
    rewrite elem_of_union, elem_of_list_to_set. right.
    vm_compute. do 2 right. left.
Defined.

Section Verdicts.

Implicit Types (mpin : str) (demographics : option (gmap str (option date))).

(** The entries of the two tables are valid PINs of the table's length. *)
Lemma common_tables_valid (s : str) :
  (s ∈ COMMONLY_USED_4_DIGIT_PINS → valid_pin s ∧ length s = 4%nat) ∧
  (s ∈ COMMONLY_USED_6_DIGIT_PINS → valid_pin s ∧ length s = 6%nat).
Proof.
  unfold COMMONLY_USED_4_DIGIT_PINS, COMMONLY_USED_6_DIGIT_PINS.
  rewrite !elem_of_list_to_set. split; intros Hs; revert s Hs.
  - apply Forall_forall. apply (bool_decide_unpack _). vm_compute. exact I.
  - apply Forall_forall. apply (bool_decide_unpack _). vm_compute. exact I.
Qed.

Lemma common_table_decimal (n : nat) (s : str) :
  s ∈ common_table n → Forall is_decimal_digit s.
Proof.
  destruct (common_tables_valid s) as [H4 H6].
  unfold common_table. repeat case_match; try by rewrite elem_of_empty.
  - intros Hs. by destruct (H4 Hs) as [[? _] _].
  - intros Hs. by destruct (H6 Hs) as [[? _] _].
Qed.

(** A valid PIN for which some reason applies is WEAK and carries that
    reason. *)
Lemma check_weak_with mpin demographics (c : str) :
  valid_pin mpin →
  (c = COMMONLY_USED ∧ mpin ∈ common_table (length mpin)) ∨
  (∃ key, (key, c) ∈ demographic_map ∧ matches_role demographics key mpin) →
  ∃ r, check_mpin_strength mpin demographics = Return r ∧
       strength r = WEAK ∧ c ∈ reasons r.
Proof.
  intros Hv Hc.
  destruct (check_over_returns demographic_map mpin demographics
              (valid_pin_isdigit mpin Hv) (proj2 Hv)) as (R & HR & Hin).
  eexists. split; [exact HR|]. cbn [strength reasons].
  apply Hin in Hc. split.
  - rewrite decide_False; [done|]. intros ->. by apply elem_of_empty in Hc.
  - by apply elem_of_sorted_elements.
Qed.

(** A call that returns has passed the guard. *)
Lemma check_return_guard mpin demographics (r : result) :
  check_mpin_strength mpin demographics = Return r →
  isdigit mpin = true ∧ (length mpin = 4%nat ∨ length mpin = 6%nat).
Proof.
  intros Hr. destruct (isdigit mpin) eqn:Hdig.
  - split; [done|].
    destruct (decide (length mpin = 4%nat ∨ length mpin = 6%nat)) as [|Hn];
      [done|].
    unfold check_mpin_strength in Hr.
    rewrite (check_over_raises demographic_map mpin demographics) in Hr
      by (by right).
    discriminate.
  - unfold check_mpin_strength in Hr.
    rewrite (check_over_raises demographic_map mpin demographics) in Hr
      by (by left).
    discriminate.
Qed.

Lemma StronglySorted_filter (P : str → Prop) `{!∀ x, Decision (P x)}
    (l : list str) :
  StronglySorted str_le l → StronglySorted str_le (filter P l).
Proof.
  induction 1 as [|x l Hl IH Hx]; [constructor|].
  rewrite filter_cons. case_decide; [|done].
  constructor; [done|].
  rewrite Forall_forall in Hx |- *. intros y [_ Hy]%list_elem_of_filter.
  by apply Hx.
Qed.

Lemma REASON_ORDER_sorted : StronglySorted str_le REASON_ORDER.
Proof. apply (bool_decide_unpack _). vm_compute. exact I. Qed.

Lemma REASON_ORDER_NoDup : NoDup REASON_ORDER.
Proof. apply (bool_decide_unpack _). vm_compute. exact I. Qed.

Lemma elem_of_REASON_ORDER (c : str) :
  c ∈ REASON_ORDER ↔
  c = COMMONLY_USED ∨ ∃ key, (key, c) ∈ demographic_map.
Proof.
  unfold REASON_ORDER. rewrite !elem_of_cons, elem_of_nil. split.
  - intros [->|[->|[->|[->|[]]]]]; [by left|right..].
    + exists anniversary. apply elem_of_demographic_map. auto.
    + exists dob_self. apply elem_of_demographic_map. auto.
    + exists dob_spouse. apply elem_of_demographic_map. auto.
  - intros [->|[key Hk]]; [by left|].
    apply elem_of_demographic_map in Hk as [[_ ->]|[[_ ->]|[_ ->]]]; auto.
Qed.

(** The reasons returned are the codes of [REASON_ORDER] that apply, in
    that order. *)
Lemma reasons_filter_order mpin demographics (r : result) :
  check_mpin_strength mpin demographics = Return r →
  reasons r = filter (λ c, c ∈ reasons r) REASON_ORDER.
Proof.
  intros Hr. destruct (check_return_guard _ _ _ Hr) as [Hdig Hlen].
  destruct (check_over_returns demographic_map mpin demographics Hdig Hlen)
    as (R & HR & Hin).
  unfold check_mpin_strength in Hr. rewrite HR in Hr. injection Hr as <-.
  cbn [reasons].
  apply (StronglySorted_unique str_le).
  - apply sorted_StronglySorted.
  - apply StronglySorted_filter, REASON_ORDER_sorted.
  - apply NoDup_Permutation.
    + rewrite sorted_Permutation. apply NoDup_elements.
    + apply NoDup_filter, REASON_ORDER_NoDup.
    + intros c. rewrite list_elem_of_filter, elem_of_REASON_ORDER.
      rewrite elem_of_sorted_elements, Hin. split; [|tauto].
      intros Hc. split; [done|].
      destruct Hc as [[-> _]|(key & Hk & _)]; [by left|right; by exists key].
Qed.

End Verdicts.

(** X2. Every entry of the two common-PIN tables is itself a valid PIN:
    whatever the demographics, it is classified WEAK with COMMONLY_USED
    among the reasons. *)
Theorem common_pin_is_weak
    (mpin : str) (demographics : option (gmap str (option date))) :
  mpin ∈ COMMONLY_USED_4_DIGIT_PINS ∪ COMMONLY_USED_6_DIGIT_PINS →
  ∃ r, check_mpin_strength mpin demographics = Return r ∧
       strength r = WEAK ∧ COMMONLY_USED ∈ reasons r.
Proof.
  intros Hin. destruct (common_tables_valid mpin) as [H4 H6].
  apply elem_of_union in Hin as [Hin|Hin].
  - destruct (H4 Hin) as [Hv Hlen]. apply check_weak_with; [done|left].
    split; [done|]. by rewrite Hlen.
  - destruct (H6 Hin) as [Hv Hlen]. apply check_weak_with; [done|left].
    split; [done|]. by rewrite Hlen.
Qed.

Lemma common_pin_is_weak_witness :
  ∃ r, check_mpin_strength (lit "112233") test_demographics = Return r ∧
       strength r = WEAK ∧ COMMONLY_USED ∈ reasons r.
Proof.
  apply (common_pin_is_weak (lit "112233") test_demographics).
  apply elem_of_union. right.
  unfold COMMONLY_USED_6_DIGIT_PINS. apply elem_of_list_to_set.
  vm_compute. do 13 right. left.
Defined.

(** X3. A PIN that passes the guard but has a character other than the
    decimal digits 0 to 9 is always classified STRONG with no reasons:
    the tables and the generated patterns hold decimal digits only. *)
Theorem non_decimal_pin_is_strong
    (mpin : str) (demographics : option (gmap str (option date))) :
  isdigit mpin = true → length mpin = 4%nat ∨ length mpin = 6%nat →
  ¬ Forall is_decimal_digit mpin →
  check_mpin_strength mpin demographics =
  Return {| strength := STRONG; reasons := [] |}.
Proof.
  intros Hdig Hlen Hnd.
  destruct (check_over_returns demographic_map mpin demographics Hdig Hlen)
    as (R & HR & Hin).
  assert (R = ∅) as ->.
  { apply set_eq. intros c. rewrite Hin, elem_of_empty. split; [|done].
    intros [[_ Hc]|(key & _ & d & _ & Hg)]; apply Hnd.
    - by eapply common_table_decimal.
    - by eapply generated_decimal. }
  unfold check_mpin_strength. rewrite HR.
  rewrite decide_True by done. by rewrite elements_empty.
Qed.

Lemma non_decimal_pin_is_strong_witness :
  check_mpin_strength arabic_indic_pin test_demographics =
  Return {| strength := STRONG; reasons := [] |}.
Proof.
  apply (non_decimal_pin_is_strong arabic_indic_pin test_demographics).
  - reflexivity.
  - by left.
  - intros [[_ Hhi] _]%Forall_cons. vm_compute in Hhi. by apply Hhi.
Defined.

(** X4. Whenever the call returns, the reasons are listed in the fixed
    order COMMONLY_USED, DEMOGRAPHIC_ANNIVERSARY, DEMOGRAPHIC_DOB_SELF,
    DEMOGRAPHIC_DOB_SPOUSE, each at most once: the list is a sublist of
    that one, so it has at most four entries and holds no other string. *)
Theorem reasons_sublist_of_order
    (mpin : str) (demographics : option (gmap str (option date)))
    (r : result) :
  check_mpin_strength mpin demographics = Return r →
  reasons r `sublist_of` REASON_ORDER.
Proof.
  intros Hr. rewrite (reasons_filter_order _ _ _ Hr).
  apply sublist_filter.
Qed.

Lemma reasons_sublist_of_order_witness :
  [COMMONLY_USED; DEMOGRAPHIC_DOB_SELF] `sublist_of` REASON_ORDER.
Proof.
  apply (reasons_sublist_of_order (lit "1992") test_demographics
           {| strength := WEAK;
              reasons := [COMMONLY_USED; DEMOGRAPHIC_DOB_SELF] |}).
  vm_compute. reflexivity.
Defined.

(** X5. Only the dates under the keys dob_self, dob_spouse and anniversary
    matter: two demographics arguments that supply the same date for each
    of these keys give the same outcome, so no map, an empty map, a map of
    None values and a map with other keys only are all alike. *)
Theorem only_role_keys_matter
    (mpin : str) (d d' : option (gmap str (option date))) :
  (∀ key, key ∈ role_keys → supplied d key = supplied d' key) →
  check_mpin_strength mpin d = check_mpin_strength mpin d'.
Proof.
  intros Hagree. unfold check_mpin_strength.
  destruct (decide (isdigit mpin = true ∧
                    (length mpin = 4%nat ∨ length mpin = 6%nat)))
    as [[Hdig Hlen]|Hbad].
  - destruct (check_over_returns demographic_map mpin d Hdig Hlen)
      as (R & -> & Hin).
    destruct (check_over_returns demographic_map mpin d' Hdig Hlen)
      as (R' & -> & Hin').
    assert (R = R') as ->; [|done].
    apply set_eq. intros c. rewrite Hin, Hin'.
    assert (Hm : ∀ key, (key, c) ∈ demographic_map →
              (matches_role d key mpin ↔ matches_role d' key mpin)).
    { intros key Hk. unfold matches_role. rewrite Hagree; [done|].
      unfold role_keys. rewrite !elem_of_cons.
      apply elem_of_demographic_map in Hk; tauto. }
    split; (intros [?|(key & Hk & ?)]; [by left|right]);
      exists key; (split; [done|]); by apply (Hm key Hk).
  - rewrite !check_over_raises; [done|..];
      (destruct (isdigit mpin); [right|by left]; tauto).
Qed.

Lemma only_role_keys_matter_witness :
  check_mpin_strength (lit "1508") None =
  check_mpin_strength (lit "1508")
    (Some (<[dob_self := None]> {[ lit "pet" := Some date_1992_08_15 ]})).
Proof.
  apply (only_role_keys_matter (lit "1508") None
           (Some (<[dob_self := None]>
                  {[ lit "pet" := Some date_1992_08_15 ]}))).
  intros key Hk. unfold role_keys in Hk.
  rewrite !elem_of_cons, elem_of_nil in Hk.
  destruct Hk as [->|[->|[->|[]]]]; vm_compute; reflexivity.
Defined.

(** X6. The generator and the classifier fit together: when a calendar
    date is supplied for a role, every pattern generated from it, of
    length 4 or 6, is a PIN the classifier accepts and rates WEAK with
    that role's reason code. *)
Theorem pattern_of_supplied_date_is_weak
    (demographics : option (gmap str (option date)))
    (key code : str) (d : date) (p : str) :
  valid_date d → (key, code) ∈ demographic_map →
  supplied demographics key = Some d →
  p ∈ _generate_demographic_pins (Some d) 4
      ∪ _generate_demographic_pins (Some d) 6 →
  ∃ r, check_mpin_strength p demographics = Return r ∧
       strength r = WEAK ∧ code ∈ reasons r.
Proof.
  intros Hd Hk Hs Hp.
  assert (∃ n, p ∈ _generate_demographic_pins (Some d) n) as [n Hn].
  { apply elem_of_union in Hp as [?|?]; eauto. }
  destruct (generated_valid_pin d n p Hd Hn) as [Hv Hlen].
  apply check_weak_with; [done|right].
  exists key. split; [done|]. exists d. split; [done|]. by rewrite Hlen.
Qed.

Lemma pattern_of_supplied_date_is_weak_witness :
  ∃ r, check_mpin_strength (lit "1811") test_demographics = Return r ∧
       strength r = WEAK ∧ DEMOGRAPHIC_ANNIVERSARY ∈ reasons r.
Proof.
  apply (pattern_of_supplied_date_is_weak test_demographics anniversary
           DEMOGRAPHIC_ANNIVERSARY date_2018_11_20 (lit "1811")).
  - vm_compute. intuition discriminate.
  - apply elem_of_demographic_map. auto.
  - vm_compute. reflexivity.
  - apply elem_of_union. left. unfold _generate_demographic_pins.
    rewrite decide_True by done.
    rewrite elem_of_union, elem_of_list_to_set. right.
    vm_compute. do 6 right. left.
Defined.

Section Symmetries.

(** Exchanging day and month leaves the generated set unchanged. *)
Lemma generate_swap (y m d : N) (n : Z) :
  _generate_demographic_pins (Some (mkdate y m d)) n =
  _generate_demographic_pins (Some (mkdate y d m)) n.
Proof.
  unfold _generate_demographic_pins. cbn [year month day].
  repeat case_decide; [| |done]; apply set_eq; intros s;
    rewrite !elem_of_union, !elem_of_list_to_set, !elem_of_cons,
      !elem_of_nil; tauto.
Qed.

Lemma elem_of_generate_6 (d : date) (s : str) :
  valid_date d →
  s ∈ _generate_demographic_pins (Some d) 6 ↔
  s = dd d ++ mm d ++ yy d ∨ s = mm d ++ dd d ++ yy d ∨
  s = yy d ++ mm d ++ dd d ∨ s = yy d ++ dd d ++ mm d.
Proof.
  intros Hd. rewrite generate_6 by done.
  rewrite elem_of_list_to_set, !elem_of_cons, elem_of_nil. tauto.
Qed.

End Symmetries.

(** X7. The generator does not tell day from month: two dates with day
    and month exchanged give the same set, at every length. *)
Theorem generate_day_month_exchange (y m d : N) (n : Z) :
  _generate_demographic_pins (Some (mkdate y m d)) n =
  _generate_demographic_pins (Some (mkdate y d m)) n.
Proof. apply generate_swap. Qed.

(** X8. Two calendar dates have the same 6-digit patterns exactly when
    their years end in the same two digits and they have the same day and
    month, possibly exchanged; the century never matters at length 6. *)
Theorem generate_6_same_patterns (d d' : date) :
  valid_date d → valid_date d' →
  _generate_demographic_pins (Some d) 6 =
  _generate_demographic_pins (Some d') 6 ↔
  year d mod 100 = year d' mod 100 ∧
  ((day d = day d' ∧ month d = month d') ∨
   (day d = month d' ∧ month d = day d')).
Proof.
  intros Hd Hd'.
  destruct (valid_date_bounds d Hd) as (Hday & Hmon & _).
  destruct (valid_date_bounds d' Hd') as (Hday' & Hmon' & _).
  assert (Hyy : year d mod 100 < 100) by (apply N.mod_upper_bound; lia).
  assert (Hyy' : year d' mod 100 < 100) by (apply N.mod_upper_bound; lia).
  split.
  - intros Heq.
    assert (H1 : dd d ++ mm d ++ yy d
                   ∈ _generate_demographic_pins (Some d') 6).
    { rewrite <- Heq. apply elem_of_generate_6; auto. }
    assert (H2 : mm d ++ dd d ++ yy d
                   ∈ _generate_demographic_pins (Some d') 6).
    { rewrite <- Heq. apply elem_of_generate_6; auto. }
    assert (H3 : dd d' ++ mm d' ++ yy d'
                   ∈ _generate_demographic_pins (Some d) 6).
    { rewrite Heq. apply elem_of_generate_6; auto. }
    assert (H4 : mm d' ++ dd d' ++ yy d'
                   ∈ _generate_demographic_pins (Some d) 6).
    { rewrite Heq. apply elem_of_generate_6; auto. }
    rewrite elem_of_generate_6 in H1, H2, H3, H4 by done.
    unfold dd, mm, yy in H1, H2, H3, H4.
    rewrite !six_digits_inj in H1, H2, H3, H4 by done.
    clear Heq Hd Hd'. lia.
  - intros [Hy Hdm]. destruct d as [y m a], d' as [y' m' a'].
    cbn [year month day] in *.
    assert (Hsame : ∀ m0 a0,
      _generate_demographic_pins (Some (mkdate y m0 a0)) 6 =
      _generate_demographic_pins (Some (mkdate y' m0 a0)) 6).
    { intros m0 a0. unfold _generate_demographic_pins.
      cbn [year month day]. by rewrite Hy. }
    destruct Hdm as [[-> ->]|[-> ->]]; [apply Hsame|].
    rewrite generate_swap. apply Hsame.
Qed.

Lemma generate_6_same_patterns_witness :
  _generate_demographic_pins (Some (mkdate 1920 3 5)) 6 =
  _generate_demographic_pins (Some (mkdate 2020 5 3)) 6 ↔
  year (mkdate 1920 3 5) mod 100 = year (mkdate 2020 5 3) mod 100 ∧
  ((day (mkdate 1920 3 5) = day (mkdate 2020 5 3) ∧
    month (mkdate 1920 3 5) = month (mkdate 2020 5 3)) ∨
   (day (mkdate 1920 3 5) = month (mkdate 2020 5 3) ∧
    month (mkdate 1920 3 5) = day (mkdate 2020 5 3))).
Proof.
  apply (generate_6_same_patterns (mkdate 1920 3 5) (mkdate 2020 5 3)).
  - vm_compute. intuition discriminate.
  - vm_compute. intuition discriminate.
Defined.

(** * Properties of the interactive runner *)

Section Interactive.

Context (B : builtins).

(** A date prompt that returns has read at least one line, and leaves the
    lines after those it read. *)
Lemma get_date_from_user_rest (prompt : str) (inputs : list str)
    (out : list io) (d : option date) (rest : list str) :
  get_date_from_user B prompt inputs = (out, Some (d, rest)) →
  ∃ read, read ≠ [] ∧ inputs = read ++ rest.
Proof.
  revert out; induction inputs as [|line inputs IH]; intros out; simpl.
  - discriminate.
  - destruct line as [|c line].
    + intros [= _ _ <-]. by exists [[]].
    + destruct (strptime_date B (c :: line)) as [dt|].
      * intros [= _ _ <-]. by exists [c :: line].
      * destruct (get_date_from_user B prompt inputs) as [out' res] eqn:Hrec.
        intros [= _ ->].
        destruct (IH out' eq_refl) as (read & _ & ->).
        by exists ((c :: line) :: read).
Qed.

Lemma get_date_from_user_shorter (prompt : str) (inputs : list str)
    (out : list io) (d : option date) (rest : list str) :
  get_date_from_user B prompt inputs = (out, Some (d, rest)) →
  (length rest < length inputs)%nat ∧ ∀ line, line ∈ rest → line ∈ inputs.
Proof.
  intros (read & Hne & ->)%get_date_from_user_rest. split.
  - rewrite length_app. destruct read; [done|simpl; lia].
  - intros line Hl. apply elem_of_app. by right.
Qed.

(** Past the guard of the runner the classifier returns. *)
Lemma check_after_guard (mpin : str)
    (demographics : option (gmap str (option date))) :
  negb (isdigit mpin) || negb (bool_decide (len mpin ∈ [4; 6]%Z)) = false →
  ∃ r, check_mpin_strength mpin demographics = Return r.
Proof.
  intros Hg. apply orb_false_iff in Hg as [Hdig Hlen].
  apply negb_false_iff in Hdig, Hlen. apply len_4_6 in Hlen.
  destruct (check_over_returns demographic_map mpin demographics Hdig Hlen)
    as (R & HR & _).
  by eexists.
Qed.

(** With fuel beyond the number of lines, the loop ends by [break] or at
    the end of the input; when no line is a quit command, at the end of
    the input. *)
Lemma interactive_loop_ending (fuel : nat) (inputs : list str) :
  (length inputs < fuel)%nat →
  (snd (interactive_loop B fuel inputs) = Finished ∨
   snd (interactive_loop B fuel inputs) = EOFError) ∧
  ((∀ line, line ∈ inputs → lower B (strip B line) ≠ lit "quit") →
   snd (interactive_loop B fuel inputs) = EOFError).
Proof.
  revert inputs; induction fuel as [|fuel IH]; intros inputs Hfuel; [lia|].
  destruct inputs as [|line inputs]; [by auto|].
  cbn [interactive_loop]. simpl in Hfuel.
  case_decide as Hquit.
  { split; [by left|]. intros Hno. destruct (Hno line); [by left|done]. }
  destruct (negb (isdigit (strip B line))
            || negb (bool_decide (len (strip B line) ∈ [4; 6]%Z)))
    eqn:Hguard.
  { destruct (IH inputs ltac:(lia)) as [Hend Hnoquit].
    destruct (interactive_loop B fuel inputs) as [out e]. simpl in *.
    split; [done|]. intros Hno. apply Hnoquit.
    intros l Hl. apply Hno. by right. }
  destruct (get_date_from_user B PROMPT_DOB_SELF inputs)
    as [out1 [[d1 in1]|]] eqn:H1; [|by auto].
  apply get_date_from_user_shorter in H1 as [Hlen1 Hsub1].
  destruct (get_date_from_user B PROMPT_DOB_SPOUSE in1)
    as [out2 [[d2 in2]|]] eqn:H2; [|by auto].
  apply get_date_from_user_shorter in H2 as [Hlen2 Hsub2].
  destruct (get_date_from_user B PROMPT_ANNIVERSARY in2)
    as [out3 [[d3 in3]|]] eqn:H3; [|by auto].
  apply get_date_from_user_shorter in H3 as [Hlen3 Hsub3].
  destruct (check_after_guard (strip B line)
              (Some (<[dob_self := d1]>
                     (<[dob_spouse := d2]> (<[anniversary := d3]> ∅))))
              Hguard) as [r ->].
  destruct (IH in3 ltac:(lia)) as [Hend Hnoquit].
  destruct (interactive_loop B fuel in3) as [out e]. simpl in *.
  split; [done|]. intros Hno. apply Hnoquit.
  intros l Hl. apply Hno. right. auto.
Qed.

Lemma run_interactive_checker_ending (inputs : list str) :
  snd (run_interactive_checker B inputs) =
  snd (interactive_loop B (S (length inputs)) inputs).
Proof.
  unfold run_interactive_checker.
  by destruct (interactive_loop B (S (length inputs)) inputs).
Qed.

End Interactive.

(** X9. Whatever is typed, the interactive runner ends in one of two
    ways: the user quits, or the input ends (EOFError). It passes to
    [check_mpin_strength] only PINs that pass its guard, so the
    classifier's ValueError never escapes, and each turn of its loop reads
    at least one line. *)
Theorem run_interactive_checker_safe (B : builtins) (inputs : list str) :
  snd (run_interactive_checker B inputs) = Finished ∨
  snd (run_interactive_checker B inputs) = EOFError.
Proof.
  rewrite run_interactive_checker_ending.
  apply interactive_loop_ending. lia.
Qed.

(** X10. The runner never stops by itself: when no line typed is a quit
    command (after [strip] and [lower]), the run ends with EOFError. *)
Theorem run_interactive_checker_no_quit (B : builtins) (inputs : list str) :
  (∀ line, line ∈ inputs → lower B (strip B line) ≠ lit "quit") →
  snd (run_interactive_checker B inputs) = EOFError.
Proof.
  rewrite run_interactive_checker_ending.
  apply interactive_loop_ending. lia.
Qed.

Lemma run_interactive_checker_no_quit_witness :
  snd (run_interactive_checker plain_builtins
         [lit "12a4"; lit "1508"; lit "1992-08-15"; []; []]) = EOFError.
Proof.
  apply (run_interactive_checker_no_quit plain_builtins
           [lit "12a4"; lit "1508"; lit "1992-08-15"; []; []]).
  intros line Hl. rewrite !elem_of_cons, elem_of_nil in Hl.
  destruct Hl as [->|[->|[->|[->|[->|[]]]]]]; vm_compute; discriminate.
Defined.

(** X11. A date prompt asks again after every line that is neither empty
    nor a date, printing one message for each, and stops at the first
    empty line (no date) or well-formed line (that date); the lines after
    it are left unread. *)
Theorem get_date_from_user_retries (B : builtins) (prompt : str)
    (bad : list str) (good : str) (rest : list str) :
  Forall (λ l, l ≠ [] ∧ strptime_date B l = None) bad →
  good = [] ∨ is_Some (strptime_date B good) →
  get_date_from_user B prompt (bad ++ good :: rest) =
  (concat ((λ _, [Input prompt; Print MSG_INVALID_FORMAT]) <$> bad)
     ++ [Input prompt],
   Some (match good with [] => None | _ :: _ => strptime_date B good end,
         rest)).
Proof.
  intros Hbad Hgood. induction Hbad as [|l bad [Hne Hnone] _ IH].
  - cbn [app fmap list_fmap concat get_date_from_user].
    destruct good as [|c good]; [done|].
    destruct Hgood as [?|[dt Hdt]]; [done|]. by rewrite Hdt.
  - cbn [app fmap list_fmap concat]. destruct l as [|c l]; [done|].
    cbn [get_date_from_user]. rewrite Hnone. cbn [fmap list_fmap] in IH.
    by rewrite IH.
Qed.

Lemma get_date_from_user_retries_witness :
  get_date_from_user plain_builtins PROMPT_DOB_SELF
    ([lit "15/08/1992"; lit "quit"] ++ lit "1992-08-15" :: [lit "1234"]) =
  (concat ((λ _, [Input PROMPT_DOB_SELF; Print MSG_INVALID_FORMAT])
           <$> [lit "15/08/1992"; lit "quit"])
     ++ [Input PROMPT_DOB_SELF],
   Some (match lit "1992-08-15" with
         | [] => None
         | _ :: _ => strptime_date plain_builtins (lit "1992-08-15")
         end,
         [lit "1234"])).
Proof.
  apply (get_date_from_user_retries plain_builtins PROMPT_DOB_SELF
           [lit "15/08/1992"; lit "quit"] (lit "1992-08-15") [lit "1234"]).
  - repeat constructor; vm_compute; discriminate.
  - right. vm_compute. by eexists.
Defined.
